(** * dynv6 provider for libdns: record translation and reconciliation

    A shallow embedding of [provider.go].  The provider talks to the dynv6
    REST API through five client methods ([getZoneByName], [getRecords],
    [addRecord], [updateRecord], [deleteRecord]) that live outside
    [provider.go]; they are kept abstract here: a program is a tree of
    client calls, and it is run against an arbitrary handler that answers
    each call and threads the state of the remote side.  The run also
    yields the trace of calls issued, with their answers. *)

From Stdlib Require Import ZArith List String Bool Lia.
Import ListNotations.

Open Scope string_scope.
Open Scope list_scope.

(** ** The libdns side *)

Module libdns.

(** [libdns.RR]: the generic resource record. [time.Duration] is an int64
    count of nanoseconds; no arithmetic is done on it here. *)
Record RR := mkRR {
  Name : string;
  TTL : Z;
  Typ : string;
  Data : string
}.

(** [libdns.Record] is an interface whose single method [RR()] gives the
    generic view of the record.  A value of the interface is either a
    [libdns.RR] itself or a value of some other implementing type
    ([libdns.Address], [libdns.TXT], ...), of which only the name of the
    dynamic type (what [%T] prints) and the result of [RR()] matter.  The
    nil interface value, on which [RR()] panics, is left out. *)
Inductive Rec :=
| IsRR (rr : RR)
| Other (typeName : string) (view : RR).

(** The method [RR()]. *)
Definition toRR (r : Rec) : RR :=
  match r with
  | IsRR rr => rr
  | Other _ view => view
  end.

End libdns.

(** ** The dynv6 side *)

(** The internal dynv6 record. [ID] is an int64. *)
Record record := mkRecord {
  ID : Z;
  Name : string;
  Typ : string;
  Data : string;
  TTL : Z
}.

(** The zone descriptor returned by [getZoneByName]; [provider.go] only
    reads its [ID]. *)
Record zone := mkZone {
  zoneID : Z;
  zoneName : string
}.

(** Go [error] values.  The first two come from the client; the last two
    are the [fmt.Errorf] values built in [provider.go]. *)
Inductive error :=
| ZoneNotFound
| TransportError (msg : string)
| UnsupportedRecordType (typeName : string)
| RecordNotFound (r : libdns.Rec).

(** A Go pair [(value, err)] of a client method: [err != nil] is all the
    caller looks at before it uses the value. *)
Inductive result (A : Type) :=
| Ok (a : A)
| Err (e : error).

Arguments Ok {A} a.
Arguments Err {A} e.

(** [getDataFromRecord]: the [Data] of a [libdns.RR], the empty string for
    any other dynamic type. *)
Definition getDataFromRecord (r : libdns.Rec) : string :=
  match r with
  | libdns.IsRR rr => libdns.Data rr
  | libdns.Other _ _ => ""
  end.

(** [(r *record) toLibdnsRecord()]. *)
Definition toLibdnsRecord (r : record) : libdns.Rec :=
  libdns.IsRR
    {| libdns.Name := Name r;
       libdns.TTL := TTL r;
       libdns.Typ := Typ r;
       libdns.Data := Data r |}.

(** [fromLibdnsRecord]: the [ID] of the new record is the zero value. *)
Definition fromLibdnsRecord (zone : string) (r : libdns.Rec) : result record :=
  match r with
  | libdns.IsRR rr =>
      Ok {| ID := 0;
            Name := libdns.Name rr;
            Typ := libdns.Typ rr;
            Data := libdns.Data rr;
            TTL := libdns.TTL rr |}
  | libdns.Other typeName _ => Err (UnsupportedRecordType typeName)
  end.

(** [updateRecord := *existingRecord; updateRecord.Data = d]: a copy of the
    existing record with its [Data] assigned. *)
Definition withData (existingRecord : record) (d : string) : record :=
  {| ID := ID existingRecord;
     Name := Name existingRecord;
     Typ := Typ existingRecord;
     Data := d;
     TTL := TTL existingRecord |}.

(** Modelled from the spec: the comparisons of the matching algorithm,
    exact string comparison of the Name and Type of an existing record
    with those of the requested record, and of the Data as well. *)
Definition sameNameType (rec : record) (r : libdns.Rec) : bool :=
  (Name rec =? libdns.Name (libdns.toRR r))
  && (Typ rec =? libdns.Typ (libdns.toRR r)).

Definition sameValue (rec : record) (r : libdns.Rec) : bool :=
  sameNameType rec r && (Data rec =? libdns.Data (libdns.toRR r)).

(** Modelled from the spec: [findRecord] is not in [provider.go].  Linear
    scan of the existing records in listing order, first match on Name
    and Type returned, [None] for the nil pointer. *)
Fixpoint findRecord (records : list record) (r : libdns.Rec) : option record :=
  match records with
  | [] => None
  | rec :: rest =>
      if sameNameType rec r then Some rec else findRecord rest r
  end.

(** Modelled from the spec: [findRecordWithValue] is not in [provider.go].
    The same scan, the value must agree as well. *)
Fixpoint findRecordWithValue (records : list record) (r : libdns.Rec)
  : option record :=
  match records with
  | [] => None
  | rec :: rest =>
      if sameValue rec r then Some rec else findRecordWithValue rest r
  end.

(** ** Programs over the client *)

(** The client methods called by [provider.go], each with the type of its
    answer.  The context and the token are passed through untouched and
    are left out. *)
Inductive call : Type -> Type :=
| getZoneByName (name : string) : call (result zone)
| getRecords (zoneID : Z) : call (result (list record))
| addRecord (zoneID : Z) (r : record) : call (result record)
| updateRecord (zoneID : Z) (r : record) : call (result record)
| deleteRecord (zoneID : Z) (recordID : Z) : call (result unit).

(** A program either returns or calls the client and goes on with the
    answer. *)
Inductive prog (A : Type) : Type :=
| Ret (a : A)
| Call (X : Type) (c : call X) (k : X -> prog A).

Arguments Ret {A} a.
Arguments Call {A X} c k.

Notation "'call!' x <- c ; k" := (Call c (fun x => k))
  (at level 10, x name, c at level 100, k at level 200).

(** What the four entry points return: the Go pair
    [([]libdns.Record, error)].  A nil slice and an empty slice are both
    the empty list. *)
Definition output : Type := list libdns.Rec * option error.

(** [GetRecords]. *)
Definition GetRecords (zone : string) : prog output :=
  call! zoneDetails <- getZoneByName zone;
  match zoneDetails with
  | Err err => Ret ([], Some err)
  | Ok zoneDetails =>
      call! dynv6Records <- getRecords (zoneID zoneDetails);
      match dynv6Records with
      | Err err => Ret ([], Some err)
      | Ok dynv6Records => Ret (map toLibdnsRecord dynv6Records, None)
      end
  end.

(** The loop of [AppendRecords], from the records still to process and the
    results so far. *)
Fixpoint appendLoop (zone : string) (zoneID : Z) (recs results : list libdns.Rec)
  : prog output :=
  match recs with
  | [] => Ret (results, None)
  | r :: recs' =>
      match fromLibdnsRecord zone r with
      | Err err => Ret (results, Some err)
      | Ok dynv6Rec =>
          call! result <- addRecord zoneID dynv6Rec;
          match result with
          | Err err => Ret (results, Some err)
          | Ok result =>
              appendLoop zone zoneID recs' (results ++ [toLibdnsRecord result])
          end
      end
  end.

(** [AppendRecords]. *)
Definition AppendRecords (zone : string) (recs : list libdns.Rec) : prog output :=
  call! zoneDetails <- getZoneByName zone;
  match zoneDetails with
  | Err err => Ret ([], Some err)
  | Ok zoneDetails => appendLoop zone (zoneID zoneDetails) recs []
  end.

(** The loop of [SetRecords].  [existingRecords] is the snapshot fetched
    before the loop; the update works on a copy of the record found, so
    the snapshot is the same in every iteration. *)
Fixpoint setLoop (zone : string) (zoneID : Z) (existingRecords : list record)
  (recs results : list libdns.Rec) : prog output :=
  match recs with
  | [] => Ret (results, None)
  | r :: recs' =>
      match findRecord existingRecords r with
      | Some existingRecord =>
          call! result <-
            updateRecord zoneID (withData existingRecord (getDataFromRecord r));
          match result with
          | Err err => Ret (results, Some err)
          | Ok result =>
              setLoop zone zoneID existingRecords recs'
                (results ++ [toLibdnsRecord result])
          end
      | None =>
          match fromLibdnsRecord zone r with
          | Err err => Ret (results, Some err)
          | Ok newRecord =>
              call! result <- addRecord zoneID newRecord;
              match result with
              | Err err => Ret (results, Some err)
              | Ok result =>
                  setLoop zone zoneID existingRecords recs'
                    (results ++ [toLibdnsRecord result])
              end
          end
      end
  end.

(** [SetRecords]. *)
Definition SetRecords (zone : string) (recs : list libdns.Rec) : prog output :=
  call! zoneDetails <- getZoneByName zone;
  match zoneDetails with
  | Err err => Ret ([], Some err)
  | Ok zoneDetails =>
      call! existingRecords <- getRecords (zoneID zoneDetails);
      match existingRecords with
      | Err err => Ret ([], Some err)
      | Ok existingRecords =>
          setLoop zone (zoneID zoneDetails) existingRecords recs []
      end
  end.

(** The loop of [DeleteRecords]; the requested record itself is appended
    to the results. *)
Fixpoint deleteLoop (zoneID : Z) (existingRecords : list record)
  (recs results : list libdns.Rec) : prog output :=
  match recs with
  | [] => Ret (results, None)
  | r :: recs' =>
      match findRecordWithValue existingRecords r with
      | None => Ret (results, Some (RecordNotFound r))
      | Some existingRecord =>
          call! err <- deleteRecord zoneID (ID existingRecord);
          match err with
          | Err err => Ret (results, Some err)
          | Ok _ => deleteLoop zoneID existingRecords recs' (results ++ [r])
          end
      end
  end.

(** [DeleteRecords]. *)
Definition DeleteRecords (zone : string) (recs : list libdns.Rec) : prog output :=
  call! zoneDetails <- getZoneByName zone;
  match zoneDetails with
  | Err err => Ret ([], Some err)
  | Ok zoneDetails =>
      call! existingRecords <- getRecords (zoneID zoneDetails);
      match existingRecords with
      | Err err => Ret ([], Some err)
      | Ok existingRecords =>
          deleteLoop (zoneID zoneDetails) existingRecords recs []
      end
  end.

(** ** Running a program *)

(** One call with its answer. *)
Inductive event :=
| Event (X : Type) (c : call X) (x : X).

Arguments Event {X} c x.

(** A handler answers every call from the state [W] of the remote side and
    gives the next state. *)
Definition handler (W : Type) : Type := forall X, call X -> W -> X * W.

(** The value returned, the final state and the calls issued, in order. *)
Fixpoint run {W A : Type} (h : handler W) (p : prog A) (w : W)
  : A * W * list event :=
  match p with
  | Ret a => (a, w, [])
  | Call c k =>
      let (x, w1) := h _ c w in
      let '(a, w2, tr) := run h (k x) w1 in
      (a, w2, Event c x :: tr)
  end.

(** The projections of a run. *)
Definition returned {W A : Type} (h : handler W) (p : prog A) (w : W) : A :=
  fst (fst (run h p w)).

Definition final {W A : Type} (h : handler W) (p : prog A) (w : W) : W :=
  snd (fst (run h p w)).

Definition trace {W A : Type} (h : handler W) (p : prog A) (w : W) : list event :=
  snd (run h p w).

(** Classifiers of events: a create call, an update call, a delete call
    that was answered without error. *)
Definition isCreate (ev : event) : bool :=
  match ev with
  | Event c _ =>
      match c with
      | addRecord _ _ => true
      | _ => false
      end
  end.

Definition isUpdate (ev : event) : bool :=
  match ev with
  | Event c _ =>
      match c with
      | updateRecord _ _ => true
      | _ => false
      end
  end.

Definition isDeleted (ev : event) : bool :=
  match ev with
  | Event c x =>
      match c in call X return X -> bool with
      | deleteRecord _ _ =>
          fun x => match x with Ok _ => true | Err _ => false end
      | _ => fun _ => false
      end x
  end.

(** ** A reference client *)

(** Modelled from the spec: the ZoneClient collaborator (the HTTP client of
    the repository is not in [provider.go]).  One zone and its records in
    listing order.  Creating a record assigns a fresh identifier and lists
    the record last; updating and deleting select their target by
    identifier and fail when no record carries it; reading leaves the zone
    as it is. *)
Record world := mkWorld {
  theZone : zone;
  records : list record
}.

Definition freshID (l : list record) : Z :=
  (1 + fold_right Z.max 0 (map ID l))%Z.

Definition withID (r : record) (id : Z) : record :=
  {| ID := id; Name := Name r; Typ := Typ r; Data := Data r; TTL := TTL r |}.

Definition hasID (id : Z) (r : record) : bool := (ID r =? id)%Z.

Definition replaceRecord (r : record) (l : list record) : list record :=
  map (fun x => if hasID (ID r) x then r else x) l.

Definition removeRecord (id : Z) (l : list record) : list record :=
  filter (fun x => negb (hasID id x)) l.

Definition unknownZone : error := TransportError "404 zone".
Definition unknownRecord : error := TransportError "404 record".

Definition dynv6 : handler world :=
  fun X c =>
    match c in call X return world -> X * world with
    | getZoneByName name => fun w =>
        if name =? zoneName (theZone w)
        then (Ok (theZone w), w)
        else (Err ZoneNotFound, w)
    | getRecords zid => fun w =>
        if (zid =? zoneID (theZone w))%Z
        then (Ok (records w), w)
        else (Err unknownZone, w)
    | addRecord zid r => fun w =>
        if (zid =? zoneID (theZone w))%Z
        then
          let r' := withID r (freshID (records w)) in
          (Ok r', mkWorld (theZone w) (records w ++ [r']))
        else (Err unknownZone, w)
    | updateRecord zid r => fun w =>
        if (zid =? zoneID (theZone w))%Z
        then
          if existsb (hasID (ID r)) (records w)
          then (Ok r, mkWorld (theZone w) (replaceRecord r (records w)))
          else (Err unknownRecord, w)
        else (Err unknownZone, w)
    | deleteRecord zid id => fun w =>
        if (zid =? zoneID (theZone w))%Z
        then
          if existsb (hasID id) (records w)
          then (Ok tt, mkWorld (theZone w) (removeRecord id (records w)))
          else (Err unknownRecord, w)
        else (Err unknownZone, w)
    end.

(** Modelled from the spec: a transport failure of the collaborator.  The
    client answers the first [n] calls like [h] and every later call with
    a [TransportError], leaving the remote side as it is. *)
Definition noAnswer {X : Type} (c : call X) : X :=
  match c with
  | getZoneByName _ => Err (TransportError "timeout")
  | getRecords _ => Err (TransportError "timeout")
  | addRecord _ _ => Err (TransportError "timeout")
  | updateRecord _ _ => Err (TransportError "timeout")
  | deleteRecord _ _ => Err (TransportError "timeout")
  end.

Definition outage {W : Type} (h : handler W) : handler (nat * W) :=
  fun X c s =>
    match fst s with
    | O => (noAnswer c, s)
    | S n => let (x, w') := h X c (snd s) in (x, (n, w'))
    end.


(** ** What a batch loop is expected to do *)

(** The call the body of the loop of [AppendRecords] builds for a requested
    record, or the error it returns before any call. *)
Definition appendPlan (zone : string) (zoneID : Z) (r : libdns.Rec)
  : result (call (result record)) :=
  match fromLibdnsRecord zone r with
  | Ok dynv6Rec => Ok (addRecord zoneID dynv6Rec)
  | Err err => Err err
  end.

(** The same for the body of the loop of [SetRecords]. *)
Definition setPlan (zone : string) (zoneID : Z) (existingRecords : list record)
  (r : libdns.Rec) : result (call (result record)) :=
  match findRecord existingRecords r with
  | Some existingRecord =>
      Ok (updateRecord zoneID (withData existingRecord (getDataFromRecord r)))
  | None =>
      match fromLibdnsRecord zone r with
      | Ok newRecord => Ok (addRecord zoneID newRecord)
      | Err err => Err err
      end
  end.

(** The calls of a batch that were answered with the records [answers]. *)
Definition answered (cs : list (call (result record))) (answers : list record)
  : list event :=
  map (fun p => Event (fst p) (Ok (snd p))) (combine cs answers).

(** Partial results on error.  The requested records split into those
    done and the rest; each record done had its call issued, in order, and
    answered with a record, and the results are [results0] followed by
    these answers translated; then either nothing is left and there is no
    error, or the first record left failed, in its translation (no call)
    or in its call (the last of the trace), with the error returned, and
    nothing was attempted after it. *)
Definition partial_results (plan : libdns.Rec -> result (call (result record)))
  (recs results0 : list libdns.Rec) (out : output) (tr : list event) : Prop :=
  exists (done rest : list libdns.Rec) (cs : list (call (result record)))
         (answers : list record) (last : list event),
    recs = done ++ rest
    /\ Forall2 (fun r c => plan r = Ok c) done cs
    /\ List.length answers = List.length cs
    /\ tr = answered cs answers ++ last
    /\ fst out = results0 ++ map toLibdnsRecord answers
    /\ match snd out with
       | None => rest = [] /\ last = []
       | Some err =>
           exists r rest',
             rest = r :: rest'
             /\ ((plan r = Err err /\ last = [])
                 \/ (exists c, plan r = Ok c /\ last = [Event c (Err err)]))
       end.

(** The deletions of the records [matches], each answered without error. *)
Definition deletions (zoneID : Z) (matches : list record) : list event :=
  map (fun e => Event (deleteRecord zoneID (ID e)) (Ok tt)) matches.

(** ** Calling Set twice *)

(** Two requested records with the same Name and Type. *)
Definition sameKey (r1 r2 : libdns.Rec) : bool :=
  (libdns.Name (libdns.toRR r1) =? libdns.Name (libdns.toRR r2))
  && (libdns.Typ (libdns.toRR r1) =? libdns.Typ (libdns.toRR r2)).

(** The requested records agree: two of them with the same Name and Type
    carry the same data, as [getDataFromRecord] extracts it. *)
Definition agreeing (recs : list libdns.Rec) : bool :=
  forallb
    (fun r1 =>
       forallb
         (fun r2 =>
            implb (sameKey r1 r2)
              (getDataFromRecord r1 =? getDataFromRecord r2))
         recs)
    recs.

(** No two records of the zone carry the same identifier. *)
Fixpoint uniqueIDs (l : list record) : bool :=
  match l with
  | [] => true
  | x :: l' => negb (existsb (hasID (ID x)) l') && uniqueIDs l'
  end.

(** An event that leaves the records [l] of the zone as they are: a
    reading call, or an update whose request is one of the records as it
    stands. *)
Definition keepsZone (l : list record) (ev : event) : Prop :=
  match ev with
  | Event c _ =>
      match c with
      | getZoneByName _ => True
      | getRecords _ => True
      | updateRecord _ r => In r l
      | addRecord _ _ => False
      | deleteRecord _ _ => False
      end
  end.

(** An updated or untouched record of the zone: same identifier, Name and
    Type as the record listed before the call. *)
Definition sameFrame (x e : record) : Prop :=
  ID x = ID e /\ Name x = Name e /\ Typ x = Typ e.

(** What holds of the records [Z] of the zone while the first call goes
    through the requested records [all], after the records [pre], from
    the snapshot [Z0]: identifiers are unique; [Z] is the snapshot, up to
    the data, followed by the records created, each for a requested
    record whose data it carries; and every record of [pre] finds a
    record with its data. *)
Definition midway (all : list libdns.Rec) (Z0 : list record)
  (pre : list libdns.Rec) (Z : list record) : Prop :=
  NoDup (map ID Z)
  /\ (exists U C,
        Z = U ++ C
        /\ Forall2 sameFrame U Z0
        /\ Forall
             (fun c =>
                exists r,
                  In r all /\ sameNameType c r = true
                  /\ Data c = getDataFromRecord r)
             C)
  /\ (forall r,
        In r pre ->
        exists x, findRecord Z r = Some x /\ Data x = getDataFromRecord r).

(** Modelled from the spec: what a second call of Set needs of the
    ZoneClient collaborator, which is not in [provider.go].  In the states
    [good] of the remote side, of which [stores] gives the records in
    listing order, the provider answers every call without error and
    keeps records as they are sent: it resolves the name to the zone [z]
    and lists the records it stores, both without changing them; it
    creates the record sent under an identifier that no stored record
    carries and stores it last; it updates by replacing the record that
    carries the identifier of the record sent by the record sent. *)
Record storing {W : Type} (h : handler W) (good : W -> Prop)
  (stores : W -> list record) (name : string) (z : zone) : Prop := {
  storing_resolve :
    forall w, good w ->
      exists w',
        h _ (getZoneByName name) w = (Ok z, w')
        /\ good w' /\ stores w' = stores w;
  storing_list :
    forall w, good w ->
      exists w',
        h _ (getRecords (zoneID z)) w = (Ok (stores w), w')
        /\ good w' /\ stores w' = stores w;
  storing_add :
    forall w r, good w ->
      exists id x w',
        h _ (addRecord (zoneID z) r) w = (Ok x, w')
        /\ good w'
        /\ ~ In id (map ID (stores w))
        /\ stores w' = stores w ++ [withID r id];
  storing_update :
    forall w r, good w -> In (ID r) (map ID (stores w)) ->
      exists x w',
        h _ (updateRecord (zoneID z) r) w = (Ok x, w')
        /\ good w'
        /\ stores w' = replaceRecord r (stores w)
}.

(** ** A zone to try the entry points on *)

(** The zone [example.com] with one address record, and the same zone with
    no record. *)
Definition exampleZone : zone := mkZone 1 "example.com".

Definition www1 : record := mkRecord 7 "www" "A" "1.2.3.4" 3600.

Definition zone0 : world := mkWorld exampleZone [www1].

Definition emptyZone : world := mkWorld exampleZone [].

(** Requested records: the address of [www] as listed and with a new
    value, two addresses of [mail], and an address of [www] and of [mail]
    held in a [libdns.Address]. *)
Definition wwwListed : libdns.Rec :=
  libdns.IsRR (libdns.mkRR "www" 3600 "A" "1.2.3.4").

Definition wwwNew : libdns.Rec :=
  libdns.IsRR (libdns.mkRR "www" 300 "A" "5.6.7.8").

Definition mailA : libdns.Rec :=
  libdns.IsRR (libdns.mkRR "mail" 300 "A" "9.9.9.9").

Definition mailB : libdns.Rec :=
  libdns.IsRR (libdns.mkRR "mail" 300 "A" "8.8.8.8").

Definition wwwAddress : libdns.Rec :=
  libdns.Other "libdns.Address" (libdns.mkRR "www" 300 "A" "5.6.7.8").

Definition mailAddress : libdns.Rec :=
  libdns.Other "libdns.Address" (libdns.mkRR "mail" 300 "A" "9.9.9.9").

(** The two reading calls of [SetRecords] and [DeleteRecords] on [zone0]. *)
Definition reads (existing : list record) : list event :=
  [Event (getZoneByName "example.com") (Ok exampleZone);
   Event (getRecords 1) (Ok existing)].

(** ** What the calls of an entry point may be *)

(** The client method an event is a call of. *)
Inductive method :=
| Resolve
| Listing
| Create
| Update
| Delete.

Definition methodOf (ev : event) : method :=
  match ev with
  | Event c _ =>
      match c with
      | getZoneByName _ => Resolve
      | getRecords _ => Listing
      | addRecord _ _ => Create
      | updateRecord _ _ => Update
      | deleteRecord _ _ => Delete
      end
  end.

(** A call of the loop of [AppendRecords]: the creation, in the zone
    [zoneID], of a record that carries no identifier. *)
Definition appendCall (zoneID : Z) (ev : event) : Prop :=
  match ev with
  | Event c _ =>
      match c with
      | addRecord z r => z = zoneID /\ ID r = 0%Z
      | _ => False
      end
  end.

(** A call of the loop of [SetRecords]: in the zone [zoneID], the
    creation of the translation of a requested record that has no match,
    or the update of the match of a requested record with the data
    extracted from it. *)
Definition setCall (zone : string) (zoneID : Z) (existing : list record)
  (recs : list libdns.Rec) (ev : event) : Prop :=
  match ev with
  | Event c _ =>
      match c with
      | addRecord z r =>
          z = zoneID
          /\ ID r = 0%Z
          /\ exists q,
               In q recs /\ findRecord existing q = None
               /\ fromLibdnsRecord zone q = Ok r
      | updateRecord z r =>
          z = zoneID
          /\ exists q e,
               In q recs /\ findRecord existing q = Some e
               /\ r = withData e (getDataFromRecord q)
      | _ => False
      end
  end.

(** A call of the loop of [DeleteRecords]: in the zone [zoneID], the
    deletion of the match of a requested record. *)
Definition deleteCall (zoneID : Z) (existing : list record)
  (recs : list libdns.Rec) (ev : event) : Prop :=
  match ev with
  | Event c _ =>
      match c with
      | deleteRecord z id =>
          z = zoneID
          /\ exists q e,
               In q recs /\ findRecordWithValue existing q = Some e
               /\ id = ID e
      | _ => False
      end
  end.

(** A creation that was answered with the record it was asked to create,
    up to the identifier; any other event passes. *)
Definition echoed (ev : event) : bool :=
  match ev with
  | Event c x =>
      match c in call X return X -> bool with
      | addRecord _ r =>
          fun x =>
            match x with
            | Ok a =>
                (Name a =? Name r) && (Typ a =? Typ r)
                && (Data a =? Data r) && (TTL a =? TTL r)%Z
            | Err _ => true
            end
      | _ => fun _ => true
      end x
  end.

(** The calls of a run are reading calls, at most [n] of them, followed by
    writing calls that all satisfy [P]. *)
Definition reads_then (n : nat) (P : event -> Prop) (tr : list event) : Prop :=
  exists rd wr,
    tr = rd ++ wr
    /\ List.length rd <= n
    /\ Forall (fun ev => methodOf ev = Resolve \/ methodOf ev = Listing) rd
    /\ Forall P wr.

(** ** Running the entry points *)

(** What [findRecord] returns is one of the records it was given, with
    the Name and Type of the requested record. *)
Lemma findRecord_In l r x :
  findRecord l r = Some x -> In x l /\ sameNameType x r = true.
Proof.
  induction l as [|y l IH]; simpl; [discriminate|].
  destruct (sameNameType y r) eqn:Hy.
  - intros [= <-]. auto.
  - intros H. apply IH in H. tauto.
Qed.


Section Runs.

Variable W : Type.
Variable h : handler W.

(** Splits the run of a program on the answer of its handler and on the
    run of what follows. *)
Ltac run_step :=
  match goal with
  | |- context [@h ?X ?c ?w] => destruct (@h X c w) as [[?x|?e] ?w]
  | H : context [@h ?X ?c ?w] |- _ => destruct (@h X c w) as [[?x|?e] ?w]
  end.

Ltac run_rest :=
  match goal with
  | H : context [run h ?p ?w] |- _ =>
      destruct (run h p w) as [[[? ?] ?] ?] eqn:?
  end.


(** Once the zone is resolved and its records are listed, [SetRecords] is
    its loop, after the two reading calls. *)
Lemma run_SetRecords zone recs w z wa existing wb :
  h _ (getZoneByName zone) w = (Ok z, wa) ->
  h _ (getRecords (zoneID z)) wa = (Ok existing, wb) ->
  run h (SetRecords zone recs) w =
  let '(out, w', tr) := run h (setLoop zone (zoneID z) existing recs []) wb in
  (out, w',
   Event (getZoneByName zone) (Ok z)
     :: Event (getRecords (zoneID z)) (Ok existing) :: tr).
Proof.
  intros Hz Hl. simpl. rewrite Hz. simpl. rewrite Hl.
  destruct (run h _ wb) as [[out w'] tr]. reflexivity.
Qed.

Lemma run_DeleteRecords zone recs w z wa existing wb :
  h _ (getZoneByName zone) w = (Ok z, wa) ->
  h _ (getRecords (zoneID z)) wa = (Ok existing, wb) ->
  run h (DeleteRecords zone recs) w =
  let '(out, w', tr) := run h (deleteLoop (zoneID z) existing recs []) wb in
  (out, w',
   Event (getZoneByName zone) (Ok z)
     :: Event (getRecords (zoneID z)) (Ok existing) :: tr).
Proof.
  intros Hz Hl. simpl. rewrite Hz. simpl. rewrite Hl.
  destruct (run h _ wb) as [[out w'] tr]. reflexivity.
Qed.

Lemma run_AppendRecords zone recs w z wa :
  h _ (getZoneByName zone) w = (Ok z, wa) ->
  run h (AppendRecords zone recs) w =
  let '(out, w', tr) := run h (appendLoop zone (zoneID z) recs []) wa in
  (out, w', Event (getZoneByName zone) (Ok z) :: tr).
Proof.
  intros Hz. simpl. rewrite Hz.
  destruct (run h _ wa) as [[out w'] tr]. reflexivity.
Qed.

(** One iteration of the loop of [SetRecords] that is answered with a
    record, on the update path and on the create path. *)
Lemma run_setLoop_update zone zid existing r rest results w e x w' :
  findRecord existing r = Some e ->
  h _ (updateRecord zid (withData e (getDataFromRecord r))) w = (Ok x, w') ->
  run h (setLoop zone zid existing (r :: rest) results) w =
  let '(out, w2, tr) :=
    run h (setLoop zone zid existing rest (results ++ [toLibdnsRecord x])) w'
  in
  (out, w2,
   Event (updateRecord zid (withData e (getDataFromRecord r))) (Ok x) :: tr).
Proof.
  intros Hf Hup. simpl. rewrite Hf. simpl. rewrite Hup. reflexivity.
Qed.

Lemma run_setLoop_create zone zid existing r rest results w d x w' :
  findRecord existing r = None ->
  fromLibdnsRecord zone r = Ok d ->
  h _ (addRecord zid d) w = (Ok x, w') ->
  run h (setLoop zone zid existing (r :: rest) results) w =
  let '(out, w2, tr) :=
    run h (setLoop zone zid existing rest (results ++ [toLibdnsRecord x])) w'
  in
  (out, w2, Event (addRecord zid d) (Ok x) :: tr).
Proof.
  intros Hf Hd Hadd. simpl. rewrite Hf, Hd. simpl. rewrite Hadd. reflexivity.
Qed.

(** A loop that went through [pre] without error goes on with the rest
    from the results and the state it reached. *)
Lemma run_setLoop_app zone zid existing pre :
  forall rest results w res w1 tr1,
    run h (setLoop zone zid existing pre results) w = ((res, None), w1, tr1) ->
    run h (setLoop zone zid existing (pre ++ rest) results) w =
    let '(out, w2, tr2) := run h (setLoop zone zid existing rest res) w1 in
    (out, w2, tr1 ++ tr2).
Proof.
  induction pre as [|r pre IH]; intros rest results w res w1 tr1 H;
    simpl in *.
  - inversion H; subst. destruct (run h _ w1) as [[out w2] tr2]. reflexivity.
  - destruct (findRecord existing r); [|destruct (fromLibdnsRecord zone r)];
      simpl in *; try discriminate;
      run_step; simpl in *; try discriminate;
      run_rest; inversion H; subst;
      match goal with
      | E : run h _ _ = _ |- _ => rewrite (IH rest _ _ _ _ _ E)
      end;
      destruct (run h _ w1) as [[out w2] tr2]; reflexivity.
Qed.

Lemma run_deleteLoop_app zid existing pre :
  forall rest results w res w1 tr1,
    run h (deleteLoop zid existing pre results) w = ((res, None), w1, tr1) ->
    run h (deleteLoop zid existing (pre ++ rest) results) w =
    let '(out, w2, tr2) := run h (deleteLoop zid existing rest res) w1 in
    (out, w2, tr1 ++ tr2).
Proof.
  induction pre as [|r pre IH]; intros rest results w res w1 tr1 H;
    simpl in *.
  - inversion H; subst. destruct (run h _ w1) as [[out w2] tr2]. reflexivity.
  - destruct (findRecordWithValue existing r); simpl in *; try discriminate;
      run_step; simpl in *; try discriminate;
      run_rest; inversion H; subst;
      match goal with
      | E : run h _ _ = _ |- _ => rewrite (IH rest _ _ _ _ _ E)
      end;
      destruct (run h _ w1) as [[out w2] tr2]; reflexivity.
Qed.

(** The results of a loop extend the results it started from. *)
Lemma run_setLoop_results zone zid existing recs :
  forall results w,
    exists more,
      fst (returned h (setLoop zone zid existing recs results) w)
      = results ++ more.
Proof.
  unfold returned.
  induction recs as [|r recs IH]; intros results w; simpl.
  - exists []. now rewrite app_nil_r.
  - destruct (findRecord existing r); [|destruct (fromLibdnsRecord zone r)];
      simpl; try (exists []; now rewrite app_nil_r);
      run_step; simpl; try (exists []; now rewrite app_nil_r);
      match goal with
      | |- context [run h (setLoop _ _ _ _ ?acc) ?w'] =>
          destruct (IH acc w') as [more Hm];
          destruct (run h (setLoop zone zid existing recs acc) w')
            as [[out w2] tr2]
      end;
      simpl in *; rewrite Hm, <- app_assoc; eexists; reflexivity.
Qed.

(** A deletion loop that ends without error has appended every requested
    record, and its calls are the deletions, all answered without error,
    of the records matching the requested ones, in order. *)
Lemma run_deleteLoop_ok zid existing recs :
  forall results w res w1 tr1,
    run h (deleteLoop zid existing recs results) w = ((res, None), w1, tr1) ->
    res = results ++ recs
    /\ exists matches,
         Forall2 (fun r e => findRecordWithValue existing r = Some e)
           recs matches
         /\ tr1 = deletions zid matches.
Proof.
  induction recs as [|r recs IH]; intros results w res w1 tr1 H; simpl in *.
  - inversion H; subst. rewrite app_nil_r. split; [reflexivity|].
    exists []. split; [constructor|reflexivity].
  - destruct (findRecordWithValue existing r) as [e0|] eqn:Hf; simpl in *;
      try discriminate.
    run_step; simpl in *; try discriminate.
    run_rest. inversion H; subst.
    match goal with
    | E : run h _ _ = _ |- _ =>
        apply IH in E; destruct E as [-> (matches & HF & ->)]
    end.
    rewrite <- app_assoc. split; [reflexivity|].
    exists (e0 :: matches). split; [constructor; assumption|].
    destruct x. reflexivity.
Qed.

(** The loops of [AppendRecords] and of [SetRecords] give partial results
    on error, whatever the client answers. *)
Ltac partial_stop :=
  exists []; eexists; exists [], []; eexists; simpl;
  split; [reflexivity|];
  split; [constructor|];
  split; [reflexivity|];
  split; [reflexivity|];
  split; [now rewrite app_nil_r|];
  eexists _, _; split; [reflexivity|]; eauto.

Ltac partial_next IH r x c :=
  match goal with
  | |- context [run h ?p ?w'] =>
      let HI := fresh "HI" in
      match p with
      | context [?acc ++ [toLibdnsRecord x]] =>
          pose proof (IH (acc ++ [toLibdnsRecord x]) w') as HI
      end;
      unfold returned, trace in HI;
      destruct (run h p w') as [[out w2] tr2]; simpl in *;
      destruct HI as
        (done & rest & cs & answers & last & -> & HF & Hlen & -> & Hout & Herr);
      exists (r :: done), rest, (c :: cs), (x :: answers), last; simpl;
      repeat split; auto;
      try (constructor; assumption);
      try (rewrite Hout, <- app_assoc; reflexivity)
  end.

Lemma appendLoop_partial zone zid recs :
  forall results w,
    partial_results (appendPlan zone zid) recs results
      (returned h (appendLoop zone zid recs results) w)
      (trace h (appendLoop zone zid recs results) w).
Proof.
  unfold returned, trace.
  induction recs as [|r recs IH]; intros results w; simpl.
  - exists [], [], [], [], []; simpl.
    repeat split; try constructor. now rewrite app_nil_r.
  - destruct (fromLibdnsRecord zone r) as [d|e] eqn:Hd; simpl.
    + assert (Hp : appendPlan zone zid r = Ok (addRecord zid d))
        by (unfold appendPlan; now rewrite Hd).
      run_step; simpl.
      * partial_next IH r x (addRecord zid d).
      * partial_stop.
    + assert (Hp : appendPlan zone zid r = Err e)
        by (unfold appendPlan; now rewrite Hd).
      partial_stop.
Qed.

Lemma setLoop_partial zone zid existing recs :
  forall results w,
    partial_results (setPlan zone zid existing) recs results
      (returned h (setLoop zone zid existing recs results) w)
      (trace h (setLoop zone zid existing recs results) w).
Proof.
  unfold returned, trace.
  induction recs as [|r recs IH]; intros results w; simpl.
  - exists [], [], [], [], []; simpl.
    repeat split; try constructor. now rewrite app_nil_r.
  - destruct (findRecord existing r) as [e0|] eqn:Hf;
      [|destruct (fromLibdnsRecord zone r) as [d|e] eqn:Hd]; simpl.
    + assert (Hp : setPlan zone zid existing r
                   = Ok (updateRecord zid (withData e0 (getDataFromRecord r))))
        by (unfold setPlan; now rewrite Hf).
      run_step; simpl.
      * partial_next IH r x
          (updateRecord zid (withData e0 (getDataFromRecord r))).
      * partial_stop.
    + assert (Hp : setPlan zone zid existing r = Ok (addRecord zid d))
        by (unfold setPlan; now rewrite Hf, Hd).
      run_step; simpl.
      * partial_next IH r x (addRecord zid d).
      * partial_stop.
    + assert (Hp : setPlan zone zid existing r = Err e)
        by (unfold setPlan; now rewrite Hf, Hd).
      partial_stop.
Qed.

(** The results of a deletion loop are the results it started from and
    then the requested records, as many as deletions were answered without
    error. *)
Lemma deleteLoop_prefix zid existing recs :
  forall results w,
    fst (returned h (deleteLoop zid existing recs results) w)
    = results
        ++ firstn
             (List.length
                (filter isDeleted
                   (trace h (deleteLoop zid existing recs results) w)))
             recs
    /\ (snd (returned h (deleteLoop zid existing recs results) w) = None ->
        fst (returned h (deleteLoop zid existing recs results) w)
        = results ++ recs).
Proof.
  unfold returned, trace.
  induction recs as [|r recs IH]; intros results w; simpl.
  - rewrite app_nil_r. auto.
  - destruct (findRecordWithValue existing r) as [e0|]; simpl.
    + run_step; simpl.
      * match goal with
        | |- context [run h ?p ?w'] =>
            destruct (IH (results ++ [r]) w') as [H1 H2];
            destruct (run h p w') as [[out w2] tr2]
        end.
        simpl in *. rewrite <- !app_assoc in *. simpl in *. auto.
      * rewrite app_nil_r. split; [reflexivity|discriminate].
    + rewrite app_nil_r. split; [reflexivity|discriminate].
Qed.

(** A run of [SetRecords] or of [DeleteRecords] that ended without error
    resolved the zone, listed its records and went through its loop
    without error. *)
Lemma SetRecords_reached zone pre w z wa existing wb res w1 tr1 :
  h _ (getZoneByName zone) w = (Ok z, wa) ->
  h _ (getRecords (zoneID z)) wa = (Ok existing, wb) ->
  run h (SetRecords zone pre) w = ((res, None), w1, tr1) ->
  exists tr,
    tr1 = Event (getZoneByName zone) (Ok z)
            :: Event (getRecords (zoneID z)) (Ok existing) :: tr
    /\ run h (setLoop zone (zoneID z) existing pre []) wb
       = ((res, None), w1, tr).
Proof.
  intros Hz Hl Hpre. rewrite (run_SetRecords _ _ _ _ _ _ _ Hz Hl) in Hpre.
  destruct (run h _ wb) as [[out w'] tr]. inversion Hpre; subst.
  exists tr. split; reflexivity.
Qed.

Lemma DeleteRecords_reached zone pre w z wa existing wb res w1 tr1 :
  h _ (getZoneByName zone) w = (Ok z, wa) ->
  h _ (getRecords (zoneID z)) wa = (Ok existing, wb) ->
  run h (DeleteRecords zone pre) w = ((res, None), w1, tr1) ->
  exists tr,
    tr1 = Event (getZoneByName zone) (Ok z)
            :: Event (getRecords (zoneID z)) (Ok existing) :: tr
    /\ run h (deleteLoop (zoneID z) existing pre []) wb
       = ((res, None), w1, tr).
Proof.
  intros Hz Hl Hpre. rewrite (run_DeleteRecords _ _ _ _ _ _ _ Hz Hl) in Hpre.
  destruct (run h _ wb) as [[out w'] tr]. inversion Hpre; subst.
  exists tr. split; reflexivity.
Qed.

Ltac run_goal out w tr :=
  match goal with
  | |- context [run h ?p ?w'] => destruct (run h p w') as [[out w] tr]
  end.

Ltac answer_goal x w :=
  match goal with
  | |- context [@h ?X ?c ?w'] => destruct (@h X c w') as [x w]
  end.

Ltac reached Hz Hl Hpre :=
  let tr := fresh "tr" in
  let Eloop := fresh "Eloop" in
  first [ destruct (SetRecords_reached _ _ _ _ _ _ _ _ _ _ Hz Hl Hpre) as (tr & -> & Eloop)
        | destruct (DeleteRecords_reached _ _ _ _ _ _ _ _ _ _ Hz Hl Hpre)
            as (tr & -> & Eloop) ];
  unfold trace, returned;
  first [ rewrite (run_SetRecords _ _ _ _ _ _ _ Hz Hl)
        | rewrite (run_DeleteRecords _ _ _ _ _ _ _ Hz Hl) ].



(** C8. When [SetRecords] gets to a requested record that is not a
    [libdns.RR] but whose (Name, Type) matches an existing record, the
    type check of the translation, which rejects the record, is not run:
    the data extracted is the empty string and the update request is the
    existing record with [Data] overwritten by the empty string.  The only
    error at this record is the one of the update call itself; when the
    call is answered with a record, that record is appended to the
    results. *)
Theorem SetRecords_update_bypasses_type_check
  zone pre typeName view post w z wa existing wb res w1 tr1 e resp w2 :
  let r := libdns.Other typeName view in
  let request :=
    {| ID := ID e; Name := Name e; Typ := Typ e; Data := ""; TTL := TTL e |} in
  h _ (getZoneByName zone) w = (Ok z, wa) ->
  h _ (getRecords (zoneID z)) wa = (Ok existing, wb) ->
  run h (SetRecords zone pre) w = ((res, None), w1, tr1) ->
  findRecord existing r = Some e ->
  h _ (updateRecord (zoneID z) request) w1 = (resp, w2) ->
  fromLibdnsRecord zone r = Err (UnsupportedRecordType typeName)
  /\ getDataFromRecord r = ""
  /\ (exists tr2,
        trace h (SetRecords zone (pre ++ r :: post)) w
        = tr1 ++ Event (updateRecord (zoneID z) request) resp :: tr2)
  /\ match resp with
     | Ok result =>
         run h (SetRecords zone (pre ++ [r])) w
         = ((res ++ [toLibdnsRecord result], None), w2,
            tr1 ++ [Event (updateRecord (zoneID z) request) (Ok result)])
     | Err err =>
         run h (SetRecords zone (pre ++ r :: post)) w
         = ((res, Some err), w2,
            tr1 ++ [Event (updateRecord (zoneID z) request) (Err err)])
     end.
Proof.
  intros r request Hz Hl Hpre Hfind Hup.
  split; [reflexivity|]. split; [reflexivity|].
  reached Hz Hl Hpre.
  rewrite (run_setLoop_app _ _ _ _ (r :: post) _ _ _ _ _ Eloop).
  split.
  - simpl. rewrite Hfind. simpl. unfold withData; unfold request in *.
    rewrite Hup.
    run_goal out2 w3 tr2. simpl.
    exists tr2. reflexivity.
  - destruct resp as [result|err].
    + rewrite (run_SetRecords _ _ _ _ _ _ _ Hz Hl).
      rewrite (run_setLoop_app _ _ _ _ [r] _ _ _ _ _ Eloop). simpl.
      rewrite Hfind. simpl. unfold withData; unfold request in *.
      rewrite Hup. reflexivity.
    + simpl. rewrite Hfind. simpl. unfold withData; unfold request in *.
      rewrite Hup. reflexivity.
Qed.

(** C2, as amended.  When [SetRecords] gets to a requested record that no
    existing record matches by (Name, Type), it translates the record.
    For a [libdns.RR] the translation succeeds and a create call (never an
    update) is issued for the new record, with the zero [ID]; when that
    call is answered with the created record, the record is appended to
    the results.  For any other record the translation fails: no call is
    issued and the unsupported-record-type error is returned with the
    results so far. *)
Theorem SetRecords_create_when_no_match
  zone pre r post w z wa existing wb res w1 tr1 :
  h _ (getZoneByName zone) w = (Ok z, wa) ->
  h _ (getRecords (zoneID z)) wa = (Ok existing, wb) ->
  run h (SetRecords zone pre) w = ((res, None), w1, tr1) ->
  findRecord existing r = None ->
  match r with
  | libdns.IsRR rr =>
      let newRecord :=
        {| ID := 0; Name := libdns.Name rr; Typ := libdns.Typ rr;
           Data := libdns.Data rr; TTL := libdns.TTL rr |} in
      (exists tr2,
         trace h (SetRecords zone (pre ++ r :: post)) w
         = tr1 ++ Event (addRecord (zoneID z) newRecord)
                    (fst (h _ (addRecord (zoneID z) newRecord) w1)) :: tr2)
      /\ (forall created w2,
            h _ (addRecord (zoneID z) newRecord) w1 = (Ok created, w2) ->
            exists more,
              fst (returned h (SetRecords zone (pre ++ r :: post)) w)
              = res ++ toLibdnsRecord created :: more)
  | libdns.Other typeName _ =>
      run h (SetRecords zone (pre ++ r :: post)) w
      = ((res, Some (UnsupportedRecordType typeName)), w1, tr1)
  end.
Proof.
  intros Hz Hl Hpre Hfind.
  reached Hz Hl Hpre.
  destruct r as [rr|typeName view].
  - cbv zeta. split.
    + rewrite (run_setLoop_app _ _ _ _ (libdns.IsRR rr :: post)
                 _ _ _ _ _ Eloop).
      simpl. rewrite Hfind. simpl.
      answer_goal resp w2. simpl.
      run_goal out2 w3 tr2. simpl.
      exists tr2. reflexivity.
    + intros created w2 Hadd.
      rewrite (run_setLoop_app _ _ _ _ (libdns.IsRR rr :: post)
                 _ _ _ _ _ Eloop).
      simpl. rewrite Hfind. simpl. rewrite Hadd.
      destruct (run_setLoop_results zone (zoneID z) existing post
                  (res ++ [toLibdnsRecord created]) w2) as [more Hm].
      unfold returned in Hm.
      run_goal out2 w3 tr2. simpl in *.
      exists more. rewrite Hm, <- app_assoc. reflexivity.
  - rewrite (run_setLoop_app _ _ _ _ (libdns.Other typeName view :: post)
               _ _ _ _ _ Eloop).
    simpl. rewrite Hfind. simpl. rewrite app_nil_r. reflexivity.
Qed.



(** C7.  [GetRecords] resolves the zone and fetches the records of the
    zone resolved.  When both calls are answered without error it returns
    one [libdns.RR] per provider record, in the order of the provider,
    with the [Name], [Typ], [Data] and [TTL] of the provider record, and
    no error; when one of the calls fails it returns the error of that
    call and no record. *)
Theorem GetRecords_lists_zone zone w :
  (forall e wa,
      h _ (getZoneByName zone) w = (Err e, wa) ->
      run h (GetRecords zone) w
      = (([], Some e), wa, [Event (getZoneByName zone) (Err e)]))
  /\ (forall z wa e wb,
        h _ (getZoneByName zone) w = (Ok z, wa) ->
        h _ (getRecords (zoneID z)) wa = (Err e, wb) ->
        run h (GetRecords zone) w
        = (([], Some e), wb,
           [Event (getZoneByName zone) (Ok z);
            Event (getRecords (zoneID z)) (Err e)]))
  /\ (forall z wa dynv6Records wb,
        h _ (getZoneByName zone) w = (Ok z, wa) ->
        h _ (getRecords (zoneID z)) wa = (Ok dynv6Records, wb) ->
        exists recs,
          run h (GetRecords zone) w
          = ((recs, None), wb,
             [Event (getZoneByName zone) (Ok z);
              Event (getRecords (zoneID z)) (Ok dynv6Records)])
          /\ List.length recs = List.length dynv6Records
          /\ forall i p,
               nth_error dynv6Records i = Some p ->
               nth_error recs i
               = Some (libdns.IsRR
                         {| libdns.Name := Name p; libdns.TTL := TTL p;
                            libdns.Typ := Typ p; libdns.Data := Data p |})).
Proof.
  repeat split.
  - intros e wa Hz. simpl. rewrite Hz. reflexivity.
  - intros z wa e wb Hz Hl. simpl. rewrite Hz. simpl. rewrite Hl. reflexivity.
  - intros z wa dynv6Records wb Hz Hl.
    exists (map toLibdnsRecord dynv6Records).
    simpl. rewrite Hz. simpl. rewrite Hl.
    split; [reflexivity|]. split; [apply length_map|].
    intros i p Hp. rewrite nth_error_map, Hp. reflexivity.
Qed.

(** C4.  [AppendRecords] and [SetRecords] go through the requested records
    in order and stop at the first failure, of a translation or of a call:
    once the zone is resolved (and, for [SetRecords], its records are
    listed), the calls issued are those of the records done, each answered
    with a record, then at most the one call that failed; the list
    returned holds the translations of exactly these answers, the error
    returned is the one of the first failure, and nothing is attempted for
    the records after it.  When the zone cannot be resolved or its records
    cannot be listed, the error of that call is returned and no
    record. *)
Theorem batch_stops_at_first_failure zone recs w :
  (forall z wa,
      h _ (getZoneByName zone) w = (Ok z, wa) ->
      exists tr,
        trace h (AppendRecords zone recs) w
        = Event (getZoneByName zone) (Ok z) :: tr
        /\ partial_results (appendPlan zone (zoneID z)) recs []
             (returned h (AppendRecords zone recs) w) tr)
  /\ (forall z wa existing wb,
        h _ (getZoneByName zone) w = (Ok z, wa) ->
        h _ (getRecords (zoneID z)) wa = (Ok existing, wb) ->
        exists tr,
          trace h (SetRecords zone recs) w
          = Event (getZoneByName zone) (Ok z)
              :: Event (getRecords (zoneID z)) (Ok existing) :: tr
          /\ partial_results (setPlan zone (zoneID z) existing) recs []
               (returned h (SetRecords zone recs) w) tr)
  /\ (forall e wa,
        h _ (getZoneByName zone) w = (Err e, wa) ->
        run h (AppendRecords zone recs) w
        = (([], Some e), wa, [Event (getZoneByName zone) (Err e)])
        /\ run h (SetRecords zone recs) w
           = (([], Some e), wa, [Event (getZoneByName zone) (Err e)]))
  /\ (forall z wa e wb,
        h _ (getZoneByName zone) w = (Ok z, wa) ->
        h _ (getRecords (zoneID z)) wa = (Err e, wb) ->
        run h (SetRecords zone recs) w
        = (([], Some e), wb,
           [Event (getZoneByName zone) (Ok z);
            Event (getRecords (zoneID z)) (Err e)])).
Proof.
  split; [|split; [|split]].
  - intros z wa Hz.
    pose proof (appendLoop_partial zone (zoneID z) recs [] wa) as H.
    unfold returned, trace in *.
    rewrite (run_AppendRecords _ _ _ _ _ Hz).
    destruct (run h _ wa) as [[out w'] tr]. simpl in *.
    exists tr. split; [reflexivity|assumption].
  - intros z wa existing wb Hz Hl.
    pose proof (setLoop_partial zone (zoneID z) existing recs [] wb) as H.
    unfold returned, trace in *.
    rewrite (run_SetRecords _ _ _ _ _ _ _ Hz Hl).
    destruct (run h _ wb) as [[out w'] tr]. simpl in *.
    exists tr. split; [reflexivity|assumption].
  - intros e wa Hz. simpl. rewrite Hz. split; reflexivity.
  - intros z wa e wb Hz Hl. simpl. rewrite Hz. simpl. rewrite Hl. reflexivity.
Qed.

End Runs.

(** ** The translation *)

(** C5.  The translation of a generic record that is not a [libdns.RR]
    (its [Data] cannot be read: the data extracted from it is empty) fails
    with the unsupported-record-type error, which names its dynamic type;
    the translation of a [libdns.RR] succeeds and the record it gives has
    the [Name], [Typ], [Data] and [TTL] of the [libdns.RR]. *)
Theorem fromLibdnsRecord_supported_only zone :
  (forall typeName view,
      fromLibdnsRecord zone (libdns.Other typeName view)
      = Err (UnsupportedRecordType typeName)
      /\ getDataFromRecord (libdns.Other typeName view) = "")
  /\ (forall rr,
        exists r,
          fromLibdnsRecord zone (libdns.IsRR rr) = Ok r
          /\ Name r = libdns.Name rr
          /\ Typ r = libdns.Typ rr
          /\ Data r = libdns.Data rr
          /\ TTL r = libdns.TTL rr).
Proof.
  split.
  - intros typeName view. split; reflexivity.
  - intros rr. eexists. split; [reflexivity|]. simpl. auto.
Qed.

(** C9.  Translating a [libdns.RR] to a dynv6 record and back gives the
    [libdns.RR] again, so [Name], [Typ], [Data] and [TTL] are the same;
    and the translation of a dynv6 record has its [Name], [Typ], [Data]
    and [TTL] and does not depend on its [ID]. *)
Theorem translation_round_trip zone :
  (forall rr,
      exists r,
        fromLibdnsRecord zone (libdns.IsRR rr) = Ok r
        /\ toLibdnsRecord r = libdns.IsRR rr)
  /\ (forall r,
        libdns.Name (libdns.toRR (toLibdnsRecord r)) = Name r
        /\ libdns.Typ (libdns.toRR (toLibdnsRecord r)) = Typ r
        /\ libdns.Data (libdns.toRR (toLibdnsRecord r)) = Data r
        /\ libdns.TTL (libdns.toRR (toLibdnsRecord r)) = TTL r)
  /\ (forall r id, toLibdnsRecord (withID r id) = toLibdnsRecord r).
Proof.
  split; [|split].
  - intros [name ttl typ data]. eexists. split; reflexivity.
  - intros r. simpl. auto.
  - intros r id. reflexivity.
Qed.

(** ** Calling Set twice: matching and identifiers *)

Lemma sameNameType_true x r :
  sameNameType x r = true <->
  Name x = libdns.Name (libdns.toRR r) /\ Typ x = libdns.Typ (libdns.toRR r).
Proof.
  unfold sameNameType. rewrite andb_true_iff, !String.eqb_eq. tauto.
Qed.

Lemma sameKey_true r1 r2 :
  sameKey r1 r2 = true <->
  libdns.Name (libdns.toRR r1) = libdns.Name (libdns.toRR r2)
  /\ libdns.Typ (libdns.toRR r1) = libdns.Typ (libdns.toRR r2).
Proof.
  unfold sameKey. rewrite andb_true_iff, !String.eqb_eq. tauto.
Qed.

Lemma sameNameType_sameKey x r1 r2 :
  sameNameType x r1 = true -> sameNameType x r2 = true -> sameKey r1 r2 = true.
Proof.
  rewrite !sameNameType_true, sameKey_true. intros [<- <-] [<- <-]. auto.
Qed.

Lemma sameNameType_frame x e r :
  sameFrame x e -> sameNameType x r = sameNameType e r.
Proof.
  intros (_ & Hn & Ht). unfold sameNameType. now rewrite Hn, Ht.
Qed.

Lemma agreeing_spec recs r1 r2 :
  agreeing recs = true ->
  In r1 recs -> In r2 recs -> sameKey r1 r2 = true ->
  getDataFromRecord r1 = getDataFromRecord r2.
Proof.
  unfold agreeing. rewrite forallb_forall. intros H H1 H2 Hk.
  specialize (H r1 H1). rewrite forallb_forall in H.
  specialize (H r2 H2). rewrite Hk in H. simpl in H.
  now apply String.eqb_eq.
Qed.

Lemma findRecord_app l1 l2 r :
  findRecord (l1 ++ l2) r =
  match findRecord l1 r with
  | Some x => Some x
  | None => findRecord l2 r
  end.
Proof.
  induction l1 as [|y l1 IH]; simpl; [reflexivity|].
  now destruct (sameNameType y r).
Qed.

Lemma findRecord_frame U Z0 r :
  Forall2 sameFrame U Z0 ->
  match findRecord Z0 r with
  | Some e => exists u, findRecord U r = Some u /\ ID u = ID e
  | None => findRecord U r = None
  end.
Proof.
  induction 1 as [|x e U Z0 Hxe HF IH]; simpl; [reflexivity|].
  rewrite (sameNameType_frame x e r Hxe).
  destruct (sameNameType e r); [|exact IH].
  exists x. split; [reflexivity|apply Hxe].
Qed.

Lemma findRecord_map (f : record -> record) l r :
  (forall x, In x l -> Name (f x) = Name x /\ Typ (f x) = Typ x) ->
  findRecord (map f l) r = option_map f (findRecord l r).
Proof.
  induction l as [|y l IH]; simpl; intros Hf; [reflexivity|].
  assert (Hy : sameNameType (f y) r = sameNameType y r).
  { destruct (Hf y (or_introl eq_refl)) as [Hn Ht].
    unfold sameNameType. now rewrite Hn, Ht. }
  rewrite Hy. destruct (sameNameType y r); [reflexivity|].
  apply IH. intros x Hx. apply Hf. now right.
Qed.

Lemma existsb_hasID id l :
  existsb (hasID id) l = true <-> In id (map ID l).
Proof.
  rewrite existsb_exists, in_map_iff. unfold hasID.
  split; intros (x & H1 & H2); exists x.
  - apply Z.eqb_eq in H2. auto.
  - split; [tauto|]. apply Z.eqb_eq. tauto.
Qed.

Lemma uniqueIDs_NoDup l : uniqueIDs l = true <-> NoDup (map ID l).
Proof.
  induction l as [|x l IH]; simpl.
  - split; [constructor|reflexivity].
  - rewrite andb_true_iff, negb_true_iff, IH, <- not_true_iff_false.
    rewrite existsb_hasID. split.
    + intros [H1 H2]. now constructor.
    + intros H. inversion H; subst. auto.
Qed.

Lemma NoDup_ID_eq l x y :
  NoDup (map ID l) -> In x l -> In y l -> ID x = ID y -> x = y.
Proof.
  induction l as [|a l IH]; simpl; [tauto|].
  intros H Hx Hy Hid. inversion H as [|? ? Hn Hd]; subst.
  destruct Hx as [<-|Hx], Hy as [<-|Hy]; auto.
  - exfalso. apply Hn. rewrite Hid. now apply in_map.
  - exfalso. apply Hn. rewrite <- Hid. now apply in_map.
Qed.

Lemma replaceRecord_IDs d l : map ID (replaceRecord d l) = map ID l.
Proof.
  unfold replaceRecord. rewrite map_map. apply map_ext.
  intros x. unfold hasID. destruct (ID x =? ID d)%Z eqn:E; [|reflexivity].
  apply Z.eqb_eq in E. auto.
Qed.

Lemma replaceRecord_other d l :
  ~ In (ID d) (map ID l) -> replaceRecord d l = l.
Proof.
  unfold replaceRecord. induction l as [|x l IH]; simpl; intros H;
    [reflexivity|].
  rewrite IH by tauto. unfold hasID.
  destruct (ID x =? ID d)%Z eqn:E; [|reflexivity].
  apply Z.eqb_eq in E. tauto.
Qed.

Lemma replaceRecord_same x l :
  NoDup (map ID l) -> In x l -> replaceRecord x l = l.
Proof.
  intros Hnd Hx. unfold replaceRecord.
  rewrite <- (map_id l) at 2. apply map_ext_in.
  intros y Hy. unfold hasID. destruct (ID y =? ID x)%Z eqn:E; [|reflexivity].
  apply Z.eqb_eq in E. now apply (NoDup_ID_eq l).
Qed.

Lemma freshID_above l x : In x l -> (ID x < freshID l)%Z.
Proof.
  unfold freshID. induction l as [|y l IH]; cbn [In map fold_right];
    [tauto|].
  intros [<-|Hx]; [|specialize (IH Hx)]; lia.
Qed.

Lemma freshID_fresh l : ~ In (freshID l) (map ID l).
Proof.
  rewrite in_map_iff. intros (x & Hid & Hx).
  apply freshID_above in Hx. lia.
Qed.

Lemma NoDup_app_left (l1 l2 : list Z) a :
  NoDup (l1 ++ l2) -> In a l1 -> ~ In a l2.
Proof.
  induction l1 as [|b l1 IH]; simpl; [tauto|].
  intros H [<-|Ha] Hin; inversion H as [|? ? Hn Hd]; subst.
  - apply Hn. apply in_or_app. now right.
  - now apply IH.
Qed.

Lemma NoDup_snoc (l : list Z) a : NoDup l -> ~ In a l -> NoDup (l ++ [a]).
Proof.
  induction l as [|b l IH]; simpl; intros H Ha.
  - constructor; [tauto|constructor].
  - inversion H as [|? ? Hn Hd]; subst. constructor.
    + rewrite in_app_iff. simpl. intros [?|[?|[]]]; [tauto|]. subst. tauto.
    + apply IH; tauto.
Qed.

Lemma sameFrame_refl l : Forall2 sameFrame l l.
Proof.
  induction l; constructor; auto. repeat split.
Qed.

Lemma sameFrame_IDs U Z0 : Forall2 sameFrame U Z0 -> map ID U = map ID Z0.
Proof.
  induction 1 as [|x e U Z0 (Hid & _) HF IH]; simpl; [reflexivity|].
  now rewrite Hid, IH.
Qed.

Lemma sameFrame_replace L d e U Z0 :
  NoDup (map ID L) -> In e L -> sameFrame d e -> incl Z0 L ->
  Forall2 sameFrame U Z0 ->
  Forall2 sameFrame (replaceRecord d U) Z0.
Proof.
  intros Hnd He Hde Hincl HF. induction HF as [|x e0 U Z0 Hx HF IH]; simpl.
  - constructor.
  - constructor.
    + unfold hasID. destruct (ID x =? ID d)%Z eqn:E; [|exact Hx].
      apply Z.eqb_eq in E.
      assert (e0 = e) as ->; [|exact Hde].
      apply (NoDup_ID_eq L); auto.
      * apply Hincl. now left.
      * destruct Hx as (Hx & _), Hde as (Hd & _). congruence.
    + apply IH. intros y Hy. apply Hincl. now right.
Qed.

(** ** Calling Set twice: the first call *)

(** An update of the first call keeps what holds midway. *)
Lemma midway_update all Z0 pre Z r e :
  agreeing all = true -> incl pre all -> In r all ->
  midway all Z0 pre Z ->
  findRecord Z0 r = Some e ->
  existsb (hasID (ID e)) Z = true
  /\ midway all Z0 (pre ++ [r])
       (replaceRecord (withData e (getDataFromRecord r)) Z).
Proof.
  intros Hag Hpre_all Hr (Hnd & (U & C & -> & HF & HC) & Hpre) Hfind.
  set (d := withData e (getDataFromRecord r)).
  pose proof (findRecord_frame U Z0 r HF) as Hfr. rewrite Hfind in Hfr.
  destruct Hfr as (u & Hu & Hid).
  destruct (findRecord_In _ _ _ Hu) as [HuU Hur].
  destruct (findRecord_In _ _ _ Hfind) as [HeZ0 Her].
  assert (HuZ : In u (U ++ C)) by (apply in_or_app; now left).
  assert (Hde : sameFrame d e) by (repeat split).
  assert (Hkeep : forall x, In x (U ++ C) -> hasID (ID d) x = true -> x = u).
  { intros x Hx Hh. apply Z.eqb_eq in Hh.
    apply (NoDup_ID_eq (U ++ C)); auto. simpl in Hh. congruence. }
  assert (Hkey : forall x, In x (U ++ C) ->
            Name ((fun x => if hasID (ID d) x then d else x) x) = Name x
            /\ Typ ((fun x => if hasID (ID d) x then d else x) x) = Typ x).
  { intros x Hx. simpl. destruct (hasID (ID e) x) eqn:Hh; [|auto].
    apply (Hkeep x Hx) in Hh. subst x.
    apply sameNameType_true in Hur, Her. simpl.
    destruct Hur as [-> ->], Her as [-> ->]. auto. }
  assert (Hdu : hasID (ID d) u = true) by (apply Z.eqb_eq; exact Hid).
  split.
  - apply existsb_hasID. rewrite <- Hid. now apply in_map.
  - split; [|split].
    + now rewrite replaceRecord_IDs.
    + exists (replaceRecord d U), C. split; [|split]; [| |exact HC].
      * unfold replaceRecord at 1. rewrite map_app.
        fold (replaceRecord d U). fold (replaceRecord d C).
        f_equal. apply replaceRecord_other.
        rewrite map_app in Hnd.
        apply (NoDup_app_left _ _ _ Hnd).
        simpl. rewrite <- Hid. now apply in_map.
      * apply (sameFrame_replace Z0 d e); auto.
        -- rewrite <- (sameFrame_IDs _ _ HF). rewrite map_app in Hnd.
           now apply NoDup_app_remove_r in Hnd.
        -- apply incl_refl.
    + intros r' Hr'. unfold replaceRecord.
      rewrite (findRecord_map _ _ r' Hkey).
      apply in_app_or in Hr'. destruct Hr' as [Hr'|[<-|[]]].
      * destruct (Hpre r' Hr') as (x' & Hx' & Hdx'). rewrite Hx'. simpl.
        destruct (hasID (ID e) x') eqn:Hh.
        -- exists d. split; [reflexivity|]. simpl.
           destruct (findRecord_In _ _ _ Hx') as [Hx'Z Hx'r].
           apply (Hkeep x' Hx'Z) in Hh. subst x'.
           symmetry. apply (agreeing_spec all); auto.
           apply (sameNameType_sameKey u); auto.
        -- exists x'. auto.
      * rewrite findRecord_app, Hu. simpl. simpl in Hdu. rewrite Hdu.
        exists d. split; reflexivity.
Qed.

(** A creation of the first call keeps what holds midway. *)
Lemma midway_create all Z0 pre Z rr id :
  agreeing all = true -> In (libdns.IsRR rr) all ->
  midway all Z0 pre Z ->
  findRecord Z0 (libdns.IsRR rr) = None ->
  ~ In id (map ID Z) ->
  midway all Z0 (pre ++ [libdns.IsRR rr])
    (Z ++ [withID
             {| ID := 0; Name := libdns.Name rr; Typ := libdns.Typ rr;
                Data := libdns.Data rr; TTL := libdns.TTL rr |}
             id]).
Proof.
  intros Hag Hr (Hnd & (U & C & -> & HF & HC) & Hpre) Hfind Hid.
  set (r := libdns.IsRR rr) in *.
  set (n := withID _ _).
  assert (Hnr : sameNameType n r = true).
  { apply sameNameType_true. split; reflexivity. }
  pose proof (findRecord_frame U Z0 r HF) as Hfr. rewrite Hfind in Hfr.
  split; [|split].
  - rewrite map_app. apply NoDup_snoc; assumption.
  - exists U, (C ++ [n]). split; [|split]; [now rewrite app_assoc|exact HF|].
    apply Forall_app. split; [exact HC|].
    constructor; [|constructor]. exists r. auto.
  - intros r' Hr'. rewrite findRecord_app.
    apply in_app_or in Hr'. destruct Hr' as [Hr'|[<-|[]]].
    + destruct (Hpre r' Hr') as (x' & -> & Hdx'). exists x'. auto.
    + destruct (findRecord (U ++ C) r) as [x|] eqn:Hx.
      * exists x. split; [reflexivity|].
        rewrite findRecord_app, Hfr in Hx.
        destruct (findRecord_In _ _ _ Hx) as [HxC Hxr].
        rewrite Forall_forall in HC.
        destruct (HC x HxC) as (r'' & Hr'' & Hxr'' & ->).
        apply (agreeing_spec all); auto.
        apply (sameNameType_sameKey x); auto.
      * simpl. rewrite Hnr. exists n. split; reflexivity.
Qed.

(** The reference client keeps records as they are sent. *)
Lemma dynv6_storing zn :
  storing dynv6 (fun w => theZone w = zn) records (zoneName zn) zn.
Proof.
  split.
  - intros [zn' Z] Hw. simpl in Hw. subst zn'. exists (mkWorld zn Z).
    simpl. rewrite String.eqb_refl. auto.
  - intros [zn' Z] Hw. simpl in Hw. subst zn'. exists (mkWorld zn Z).
    simpl. rewrite Z.eqb_refl. auto.
  - intros [zn' Z] r Hw. simpl in Hw. subst zn'.
    exists (freshID Z), (withID r (freshID Z)),
      (mkWorld zn (Z ++ [withID r (freshID Z)])).
    cbn [dynv6 theZone records]. rewrite Z.eqb_refl.
    split; [reflexivity|]. split; [reflexivity|].
    split; [apply freshID_fresh|reflexivity].
  - intros [zn' Z] r Hw Hin. simpl in Hw. subst zn'.
    exists r, (mkWorld zn (replaceRecord r Z)). simpl in *.
    apply existsb_hasID in Hin. rewrite Z.eqb_refl, Hin. auto.
Qed.

Section Twice.

Variable W : Type.
Variable h : handler W.
Variable good : W -> Prop.
Variable stores : W -> list record.
Variable z : zone.
Variable zone : string.
Hypothesis provider : storing h good stores zone z.

(** A first call that ends without error leaves the zone such that every
    requested record finds a record with its data. *)
Lemma setLoop_midway Z0 all :
  agreeing all = true ->
  forall rest pre results w res w' tr,
    incl pre all -> incl rest all ->
    good w ->
    midway all Z0 pre (stores w) ->
    run h (setLoop zone (zoneID z) Z0 rest results) w = ((res, None), w', tr) ->
    good w' /\ midway all Z0 (pre ++ rest) (stores w').
Proof.
  intros Hag.
  induction rest as [|r rest IH];
    intros pre results w res w' tr Hp Hr Hw Hm H.
  - simpl in H. inversion H; subst. rewrite app_nil_r. auto.
  - assert (Hr1 : In r all) by (apply Hr; now left).
    assert (Hr2 : incl rest all) by (intros y Hy; apply Hr; now right).
    assert (Hp' : incl (pre ++ [r]) all).
    { intros y Hy. apply in_app_or in Hy. destruct Hy as [Hy|[<-|[]]]; auto. }
    replace (pre ++ r :: rest) with ((pre ++ [r]) ++ rest)
      by (now rewrite <- app_assoc).
    destruct (findRecord Z0 r) as [e|] eqn:Hf.
    + destruct (midway_update all Z0 pre (stores w) r e Hag Hp Hr1 Hm Hf)
        as [Hex Hm'].
      apply existsb_hasID in Hex.
      destruct (@storing_update _ _ _ _ _ _ provider w
                  (withData e (getDataFromRecord r)) Hw Hex)
        as (x & w1 & Hup & Hw1 & Hs1).
      rewrite (run_setLoop_update _ h zone _ _ _ rest results _ _ _ _ Hf Hup)
        in H.
      destruct (run h _ w1) as [[[res2 err2] w2] tr2] eqn:E in H.
      inversion H; subst. rewrite <- Hs1 in Hm'.
      exact (IH _ _ _ _ _ _ Hp' Hr2 Hw1 Hm' E).
    + destruct r as [rr|typeName view].
      * destruct (@storing_add _ _ _ _ _ _ provider w
                    {| ID := 0; Name := libdns.Name rr; Typ := libdns.Typ rr;
                       Data := libdns.Data rr; TTL := libdns.TTL rr |} Hw)
          as (id & x & w1 & Hadd & Hw1 & Hid & Hs1).
        pose proof (midway_create all Z0 pre (stores w) rr id Hag Hr1 Hm Hf
                      Hid) as Hm'.
        rewrite (run_setLoop_create _ h zone _ _ _ rest results _ _ _ _ Hf
                   eq_refl Hadd) in H.
        destruct (run h _ w1) as [[[res2 err2] w2] tr2] eqn:E in H.
        inversion H; subst. rewrite <- Hs1 in Hm'.
        exact (IH _ _ _ _ _ _ Hp' Hr2 Hw1 Hm' E).
      * simpl in H. rewrite Hf in H. simpl in H. discriminate.
Qed.

(** When every requested record finds a record of the zone with its data,
    the loop of [SetRecords] only issues updates whose request is the
    record found as it stands, and the zone stays as it is. *)
Lemma setLoop_again S :
  NoDup (map ID S) ->
  forall rest results w,
    good w -> stores w = S ->
    (forall r, In r rest ->
       exists x, findRecord S r = Some x /\ Data x = getDataFromRecord r) ->
    exists res w' tr,
      run h (setLoop zone (zoneID z) S rest results) w = ((res, None), w', tr)
      /\ good w' /\ stores w' = S
      /\ Forall (keepsZone S) tr.
Proof.
  intros Hnd. induction rest as [|r rest IH]; intros results w Hw Hs H.
  - exists results, w, []. repeat split; auto.
  - destruct (H r (or_introl eq_refl)) as (x & Hx & Hd).
    destruct (findRecord_In _ _ _ Hx) as [HxS _].
    assert (Hsame : withData x (getDataFromRecord r) = x).
    { rewrite <- Hd. now destruct x. }
    assert (Hin : In (ID (withData x (getDataFromRecord r)))
                    (map ID (stores w))).
    { rewrite Hsame, Hs. now apply in_map. }
    destruct (@storing_update _ _ _ _ _ _ provider w _ Hw Hin) as (a & w1 & Hup & Hw1 & Hs1).
    rewrite Hsame, Hs, (replaceRecord_same x S Hnd HxS) in Hs1.
    rewrite (run_setLoop_update _ h zone _ _ _ rest results _ _ _ _ Hx Hup).
    destruct (IH (results ++ [toLibdnsRecord a]) w1 Hw1 Hs1)
      as (res & w' & tr & -> & Hw' & Hs' & Htr).
    { intros r' Hr'. apply H. now right. }
    exists res, w'. eexists. split; [reflexivity|].
    split; [assumption|]. split; [assumption|].
    constructor; [|exact Htr]. simpl. now rewrite Hsame.
Qed.

(** C6, as amended.  Against a provider that answers every call without
    error and keeps records as they are sent ([storing]), in a zone whose
    records carry distinct identifiers: when the requested records agree
    (two of them with the same Name and Type give the same data to
    [getDataFromRecord]: the [Data] of a [libdns.RR], the empty string for
    any other record) and a first call of [SetRecords] returns no error, a
    second call with the same list finds a (Name, Type) match carrying
    that data for every requested record, issues only updates whose
    request is the record found as it stands (no create call), returns no
    error and leaves the records of the zone exactly as the first call
    left them. *)
Theorem SetRecords_twice recs w0 :
  good w0 ->
  uniqueIDs (stores w0) = true ->
  agreeing recs = true ->
  snd (returned h (SetRecords zone recs) w0) = None ->
  let w1 := final h (SetRecords zone recs) w0 in
  (forall r, In r recs ->
     exists e,
       findRecord (stores w1) r = Some e /\ Data e = getDataFromRecord r)
  /\ Forall (keepsZone (stores w1)) (trace h (SetRecords zone recs) w1)
  /\ snd (returned h (SetRecords zone recs) w1) = None
  /\ stores (final h (SetRecords zone recs) w1) = stores w1.
Proof.
  intros Hw0 Hu Hag Hok.
  destruct (@storing_resolve _ _ _ _ _ _ provider w0 Hw0) as (wa & Hz & Hwa & Hsa).
  destruct (@storing_list _ _ _ _ _ _ provider wa Hwa) as (wb & Hl & Hwb & Hsb).
  unfold final, returned, trace in *.
  rewrite (run_SetRecords _ h _ recs _ _ _ _ _ Hz Hl) in *.
  destruct (run h (setLoop zone (zoneID z) (stores wa) recs []) wb)
    as [[[res err] w1] tr] eqn:E.
  simpl in Hok. subst err. cbn [fst snd].
  destruct (setLoop_midway (stores wa) recs Hag recs [] [] wb res w1 tr)
    as [Hw1 (Hnd & _ & Hall)]; auto using incl_refl.
  { intros y []. }
  { rewrite Hsb. split; [rewrite Hsa; now apply uniqueIDs_NoDup|]. split.
    - exists (stores wa), []. rewrite app_nil_r.
      split; [reflexivity|]. split; [apply sameFrame_refl|constructor].
    - intros r []. }
  simpl in Hall.
  destruct (@storing_resolve _ _ _ _ _ _ provider w1 Hw1) as (wa' & Hz' & Hwa' & Hsa').
  destruct (@storing_list _ _ _ _ _ _ provider wa' Hwa') as (wb' & Hl' & Hwb' & Hsb').
  rewrite (run_SetRecords _ h _ recs _ _ _ _ _ Hz' Hl').
  rewrite Hsa' in *.
  destruct (setLoop_again (stores w1) Hnd recs [] wb' Hwb' Hsb' Hall)
    as (res2 & w2 & tr2 & -> & Hw2 & Hs2 & Htr).
  cbn [fst snd]. split; [exact Hall|]. split; [|split; [reflexivity|exact Hs2]].
  constructor; [exact I|]. constructor; [exact I|exact Htr].
Qed.

End Twice.

(** ** The theorems at work on the reference client *)



(** Setting the address of [www] held in a [libdns.Address]. *)
Lemma SetRecords_update_bypasses_type_check_witness :
  fromLibdnsRecord "example.com" wwwAddress
  = Err (UnsupportedRecordType "libdns.Address")
  /\ getDataFromRecord wwwAddress = ""
  /\ (exists tr2,
        trace dynv6 (SetRecords "example.com" ([] ++ wwwAddress :: [mailA]))
          zone0
        = reads [www1]
            ++ Event (updateRecord 1 (mkRecord 7 "www" "A" "" 3600))
                 (Ok (mkRecord 7 "www" "A" "" 3600)) :: tr2)
  /\ run dynv6 (SetRecords "example.com" ([] ++ [wwwAddress])) zone0
     = (([] ++ [toLibdnsRecord (mkRecord 7 "www" "A" "" 3600)], None),
        mkWorld exampleZone [mkRecord 7 "www" "A" "" 3600],
        reads [www1]
          ++ [Event (updateRecord 1 (mkRecord 7 "www" "A" "" 3600))
                (Ok (mkRecord 7 "www" "A" "" 3600))]).
Proof.
  apply (SetRecords_update_bypasses_type_check world dynv6 "example.com"
           [] "libdns.Address" (libdns.mkRR "www" 300 "A" "5.6.7.8") [mailA]
           zone0 exampleZone zone0 [www1] zone0 [] zone0 (reads [www1]) www1
           (Ok (mkRecord 7 "www" "A" "" 3600))
           (mkWorld exampleZone [mkRecord 7 "www" "A" "" 3600]));
    reflexivity.
Defined.

(** Setting an address of [mail], which the zone does not list, after
    the address of [www]. *)
Lemma SetRecords_create_when_no_match_witness :
  (exists tr2,
     trace dynv6 (SetRecords "example.com" ([wwwNew] ++ mailA :: [mailB]))
       zone0
     = (reads [www1]
          ++ [Event (updateRecord 1 (mkRecord 7 "www" "A" "5.6.7.8" 3600))
                (Ok (mkRecord 7 "www" "A" "5.6.7.8" 3600))])
         ++ Event (addRecord 1 (mkRecord 0 "mail" "A" "9.9.9.9" 300))
              (fst (dynv6 _
                      (addRecord 1 (mkRecord 0 "mail" "A" "9.9.9.9" 300))
                      (mkWorld exampleZone
                         [mkRecord 7 "www" "A" "5.6.7.8" 3600])))
            :: tr2)
  /\ (forall created w2,
        dynv6 _ (addRecord 1 (mkRecord 0 "mail" "A" "9.9.9.9" 300))
          (mkWorld exampleZone [mkRecord 7 "www" "A" "5.6.7.8" 3600])
        = (Ok created, w2) ->
        exists more,
          fst (returned dynv6
                 (SetRecords "example.com" ([wwwNew] ++ mailA :: [mailB]))
                 zone0)
          = [toLibdnsRecord (mkRecord 7 "www" "A" "5.6.7.8" 3600)]
              ++ toLibdnsRecord created :: more).
Proof.
  apply (SetRecords_create_when_no_match world dynv6 "example.com"
           [wwwNew] mailA [mailB] zone0 exampleZone zone0 [www1] zone0
           [toLibdnsRecord (mkRecord 7 "www" "A" "5.6.7.8" 3600)]
           (mkWorld exampleZone [mkRecord 7 "www" "A" "5.6.7.8" 3600]));
    reflexivity.
Defined.

(** C2, as stated, fails on a requested record that is not a [libdns.RR]:
    no existing record matches the address of [mail], yet no create call
    is issued and nothing is appended to the list returned. *)
Lemma SetRecords_no_match_unsupported :
  findRecord (records zone0) mailAddress = None
  /\ existsb isCreate
       (trace dynv6 (SetRecords "example.com" [mailAddress]) zone0)
     = false
  /\ existsb isUpdate
       (trace dynv6 (SetRecords "example.com" [mailAddress]) zone0)
     = false
  /\ returned dynv6 (SetRecords "example.com" [mailAddress]) zone0
     = ([], Some (UnsupportedRecordType "libdns.Address"))
  /\ final dynv6 (SetRecords "example.com" [mailAddress]) zone0 = zone0.
Proof.
  repeat split.
Qed.



(** The record returned by [DeleteRecords] is the requested one, here a
    [libdns.Address] with another TTL than the record deleted, and not the
    translation of the record deleted. *)
Example DeleteRecords_returns_request_not_translation :
  let r := libdns.Other "libdns.Address" (libdns.mkRR "www" 60 "A" "1.2.3.4") in
  run dynv6 (DeleteRecords "example.com" [r]) zone0
  = (([r], None), emptyZone,
     reads [www1] ++ [Event (deleteRecord 1 7) (Ok tt)])
  /\ r <> toLibdnsRecord www1.
Proof.
  split; [reflexivity|discriminate].
Qed.


(** Listing an unknown zone, the zone during an outage after the first
    call, and the zone. *)
Lemma GetRecords_lists_zone_witness :
  run dynv6 (GetRecords "example.org") zone0
  = (([], Some ZoneNotFound), zone0,
     [Event (getZoneByName "example.org") (Err ZoneNotFound)])
  /\ run (outage dynv6) (GetRecords "example.com") (1, zone0)
     = (([], Some (TransportError "timeout")), (0, zone0),
        [Event (getZoneByName "example.com") (Ok exampleZone);
         Event (getRecords (zoneID exampleZone))
           (Err (TransportError "timeout"))])
  /\ exists recs,
       run dynv6 (GetRecords "example.com") zone0
       = ((recs, None), zone0,
          [Event (getZoneByName "example.com") (Ok exampleZone);
           Event (getRecords (zoneID exampleZone)) (Ok [www1])])
       /\ List.length recs = List.length [www1]
       /\ forall i p,
            nth_error [www1] i = Some p ->
            nth_error recs i
            = Some (libdns.IsRR
                      {| libdns.Name := Name p; libdns.TTL := TTL p;
                         libdns.Typ := Typ p; libdns.Data := Data p |}).
Proof.
  split; [|split].
  - apply (proj1 (GetRecords_lists_zone world dynv6 "example.org" zone0)).
    reflexivity.
  - apply (proj1 (proj2 (GetRecords_lists_zone (nat * world)%type
                           (outage dynv6) "example.com" (1, zone0)))
             exampleZone (0, zone0)); reflexivity.
  - apply (proj2 (proj2 (GetRecords_lists_zone world dynv6 "example.com"
                           zone0))
             exampleZone zone0); reflexivity.
Defined.

(** Appending with a [libdns.Address] in second place, setting during an
    outage after the third call, and both in an unknown zone or during an
    outage after the first call. *)
Lemma batch_stops_at_first_failure_witness :
  (exists tr,
     trace dynv6 (AppendRecords "example.com" [mailA; mailAddress; mailB]) zone0
     = Event (getZoneByName "example.com") (Ok exampleZone) :: tr
     /\ partial_results (appendPlan "example.com" (zoneID exampleZone))
          [mailA; mailAddress; mailB] []
          (returned dynv6
             (AppendRecords "example.com" [mailA; mailAddress; mailB]) zone0)
          tr)
  /\ (exists tr,
        trace (outage dynv6) (SetRecords "example.com" [wwwNew; mailA; mailB])
          (3, zone0)
        = Event (getZoneByName "example.com") (Ok exampleZone)
            :: Event (getRecords (zoneID exampleZone)) (Ok [www1]) :: tr
        /\ partial_results (setPlan "example.com" (zoneID exampleZone) [www1])
             [wwwNew; mailA; mailB] []
             (returned (outage dynv6)
                (SetRecords "example.com" [wwwNew; mailA; mailB]) (3, zone0))
             tr)
  /\ (run dynv6 (AppendRecords "example.org" [mailA]) zone0
      = (([], Some ZoneNotFound), zone0,
         [Event (getZoneByName "example.org") (Err ZoneNotFound)])
      /\ run dynv6 (SetRecords "example.org" [mailA]) zone0
         = (([], Some ZoneNotFound), zone0,
            [Event (getZoneByName "example.org") (Err ZoneNotFound)]))
  /\ run (outage dynv6) (SetRecords "example.com" [mailA]) (1, zone0)
     = (([], Some (TransportError "timeout")), (0, zone0),
        [Event (getZoneByName "example.com") (Ok exampleZone);
         Event (getRecords (zoneID exampleZone))
           (Err (TransportError "timeout"))]).
Proof.
  split; [|split; [|split]].
  - apply (proj1 (batch_stops_at_first_failure world dynv6 "example.com"
                    [mailA; mailAddress; mailB] zone0) exampleZone zone0).
    reflexivity.
  - apply (proj1 (proj2 (batch_stops_at_first_failure (nat * world)%type
                           (outage dynv6) "example.com"
                           [wwwNew; mailA; mailB] (3, zone0)))
             exampleZone (2, zone0) [www1] (1, zone0)); reflexivity.
  - apply (proj1 (proj2 (proj2 (batch_stops_at_first_failure world dynv6
                                  "example.org" [mailA] zone0)))
             ZoneNotFound zone0).
    reflexivity.
  - apply (proj2 (proj2 (proj2 (batch_stops_at_first_failure (nat * world)%type
                                  (outage dynv6) "example.com" [mailA]
                                  (1, zone0))))
             exampleZone (0, zone0)); reflexivity.
Defined.

(** Setting twice a new address for [www] and twice the same address of
    [mail]. *)
Lemma SetRecords_twice_witness :
  let w1 :=
    final dynv6 (SetRecords "example.com" [wwwNew; mailA; mailA]) zone0 in
  (forall r, In r [wwwNew; mailA; mailA] ->
     exists e,
       findRecord (records w1) r = Some e /\ Data e = getDataFromRecord r)
  /\ Forall (keepsZone (records w1))
       (trace dynv6 (SetRecords "example.com" [wwwNew; mailA; mailA]) w1)
  /\ snd (returned dynv6 (SetRecords "example.com" [wwwNew; mailA; mailA]) w1)
     = None
  /\ records
       (final dynv6 (SetRecords "example.com" [wwwNew; mailA; mailA]) w1)
     = records w1.
Proof.
  apply (SetRecords_twice world dynv6 (fun w => theZone w = exampleZone)
           records exampleZone "example.com" (dynv6_storing exampleZone)
           [wwwNew; mailA; mailA] zone0);
    reflexivity.
Defined.

(** C6, as stated, fails on two requested records with the same Name and
    Type and different data, neither of which has a match: the first call
    creates one record for each; the second call matches both with the
    record listed first, which it updates to the value it carries and
    then to the value of the other requested record, so the data in the
    zone after the second call are not those after the first call.  It
    fails on a requested record with no match that is not a
    [libdns.RR]: both calls return the unsupported-record-type error and
    the second call finds no match for the record.  And it fails on a
    [libdns.RR] and a [libdns.Address] that carry the same address of
    [www]: the first call leaves the empty string in the record, which
    the second call updates to the address before it empties it again. *)
Lemma second_Set_overwrites_same_name_type :
  let recs := [mailA; mailB] in
  let w1 := final dynv6 (SetRecords "example.com" recs) emptyZone in
  let w2 := final dynv6 (SetRecords "example.com" recs) w1 in
  let w1' := final dynv6 (SetRecords "example.com" [mailAddress]) emptyZone in
  let w1'' :=
    final dynv6 (SetRecords "example.com" [wwwNew; wwwAddress]) zone0 in
  returned dynv6 (SetRecords "example.com" recs) emptyZone
  = (recs, None)
  /\ map Data (records w1) = ["9.9.9.9"; "8.8.8.8"]
  /\ trace dynv6 (SetRecords "example.com" recs) w1
     = reads (records w1)
         ++ [Event (updateRecord 1 (mkRecord 1 "mail" "A" "9.9.9.9" 300))
               (Ok (mkRecord 1 "mail" "A" "9.9.9.9" 300));
             Event (updateRecord 1 (mkRecord 1 "mail" "A" "8.8.8.8" 300))
               (Ok (mkRecord 1 "mail" "A" "8.8.8.8" 300))]
  /\ map Data (records w2) = ["8.8.8.8"; "8.8.8.8"]
  /\ map Data (records w2) <> map Data (records w1)
  /\ findRecord (records w1') mailAddress = None
  /\ returned dynv6 (SetRecords "example.com" [mailAddress]) w1'
     = ([], Some (UnsupportedRecordType "libdns.Address"))
  /\ libdns.Data (libdns.toRR wwwNew) = libdns.Data (libdns.toRR wwwAddress)
  /\ records w1'' = [mkRecord 7 "www" "A" "" 3600]
  /\ trace dynv6 (SetRecords "example.com" [wwwNew; wwwAddress]) w1''
     = reads (records w1'')
         ++ [Event (updateRecord 1 (mkRecord 7 "www" "A" "5.6.7.8" 3600))
               (Ok (mkRecord 7 "www" "A" "5.6.7.8" 3600));
             Event (updateRecord 1 (mkRecord 7 "www" "A" "" 3600))
               (Ok (mkRecord 7 "www" "A" "" 3600))].
Proof.
  repeat split. discriminate.
Qed.

Section Calls.

Variable W : Type.
Variable h : handler W.

Ltac answer x e w1 :=
  match goal with
  | |- context [@h ?X ?c ?w] => destruct (@h X c w) as [[x|e] w1] eqn:?
  end.

Ltac rest_of_run IH out w2 tr2 :=
  match goal with
  | |- context [run h ?p ?w'] =>
      match p with
      | context [?acc ++ [?v]] =>
          let HI := fresh "HI" in
          pose proof (IH (acc ++ [v]) w') as HI;
          unfold trace, returned in HI;
          destruct (run h p w') as [[out w2] tr2]
      end
  end.

(** The calls of the loops, whatever the client answers. *)
Lemma appendLoop_calls zone zid recs :
  forall results w,
    Forall (appendCall zid) (trace h (appendLoop zone zid recs results) w).
Proof.
  unfold trace.
  induction recs as [|r recs IH]; intros results w; simpl; [constructor|].
  destruct r as [rr|typeName view]; simpl; [|constructor].
  answer x e w1; simpl.
  - rest_of_run IH out w2 tr2. simpl. cbn [fst snd] in HI.
    constructor; [split; reflexivity|assumption].
  - constructor; [split; reflexivity|constructor].
Qed.

Lemma setCall_incl zone zid existing recs r ev :
  setCall zone zid existing recs ev ->
  setCall zone zid existing (r :: recs) ev.
Proof.
  destruct ev as [X c x]. destruct c; simpl; auto.
  - intros (Hz & Hid & q & Hq & H). split; [assumption|].
    split; [assumption|]. exists q. split; [now right|assumption].
  - intros (Hz & q & e & Hq & H). split; [assumption|].
    exists q, e. split; [now right|assumption].
Qed.

Lemma setLoop_calls zone zid existing recs :
  forall results w,
    Forall (setCall zone zid existing recs)
      (trace h (setLoop zone zid existing recs results) w).
Proof.
  unfold trace.
  induction recs as [|r recs IH]; intros results w; simpl; [constructor|].
  destruct (findRecord existing r) as [e0|] eqn:Hf; simpl.
  - assert (Hcall : forall x,
              setCall zone zid existing (r :: recs)
                (Event (updateRecord zid (withData e0 (getDataFromRecord r)))
                   x)).
    { intros x. split; [reflexivity|]. exists r, e0.
      split; [now left|]. split; [assumption|reflexivity]. }
    answer x e w1; simpl.
    + rest_of_run IH out w2 tr2. simpl. cbn [fst snd] in HI.
      constructor; [apply Hcall|].
      eapply Forall_impl; [|exact HI]. intros ev. apply setCall_incl.
    + constructor; [apply Hcall|constructor].
  - destruct (fromLibdnsRecord zone r) as [d|e] eqn:Hd; simpl; [|constructor].
    assert (Hcall : forall x,
              setCall zone zid existing (r :: recs) (Event (addRecord zid d) x)).
    { intros x. split; [reflexivity|]. split.
      - destruct r; simpl in Hd; [|discriminate]. now inversion Hd.
      - exists r. split; [now left|]. split; assumption. }
    answer x e w1; simpl.
    + rest_of_run IH out w2 tr2. simpl. cbn [fst snd] in HI.
      constructor; [apply Hcall|].
      eapply Forall_impl; [|exact HI]. intros ev. apply setCall_incl.
    + constructor; [apply Hcall|constructor].
Qed.

Lemma deleteCall_incl zid existing recs r ev :
  deleteCall zid existing recs ev -> deleteCall zid existing (r :: recs) ev.
Proof.
  destruct ev as [X c x]. destruct c; simpl; auto.
  intros (Hz & q & e & Hq & H). split; [assumption|].
  exists q, e. split; [now right|assumption].
Qed.

Lemma deleteLoop_calls zid existing recs :
  forall results w,
    Forall (deleteCall zid existing recs)
      (trace h (deleteLoop zid existing recs results) w).
Proof.
  unfold trace.
  induction recs as [|r recs IH]; intros results w; simpl; [constructor|].
  destruct (findRecordWithValue existing r) as [e0|] eqn:Hf; simpl;
    [|constructor].
  assert (Hcall : forall x,
            deleteCall zid existing (r :: recs)
              (Event (deleteRecord zid (ID e0)) x)).
  { intros x. split; [reflexivity|]. exists r, e0.
    split; [now left|]. split; [assumption|reflexivity]. }
  answer x e w1; simpl.
  - rest_of_run IH out w2 tr2. simpl. cbn [fst snd] in HI.
    constructor; [apply Hcall|].
    eapply Forall_impl; [|exact HI]. intros ev. apply deleteCall_incl.
  - constructor; [apply Hcall|constructor].
Qed.

Lemma appendCall_Create zid ev : appendCall zid ev -> methodOf ev = Create.
Proof.
  destruct ev as [X c x]. destruct c; simpl; tauto.
Qed.

Lemma setCall_write zone zid existing recs ev :
  setCall zone zid existing recs ev ->
  methodOf ev = Create \/ methodOf ev = Update.
Proof.
  destruct ev as [X c x]. destruct c; simpl; tauto.
Qed.

Lemma deleteCall_Delete zid existing recs ev :
  deleteCall zid existing recs ev -> methodOf ev = Delete.
Proof.
  destruct ev as [X c x]. destruct c; simpl; tauto.
Qed.

(** X1.  Whatever the client answers, [AppendRecords] resolves the zone
    once and then only creates: it never lists the zone, so it does not
    look for a record that is already there, and it never updates or
    deletes.  Every record it creates goes to the zone resolved and
    carries no identifier. *)
Theorem AppendRecords_only_creates zone recs w :
  reads_then 1 (fun ev => methodOf ev = Create)
    (trace h (AppendRecords zone recs) w)
  /\ Forall (fun ev => methodOf ev <> Listing)
       (trace h (AppendRecords zone recs) w)
  /\ (forall z wa,
        h _ (getZoneByName zone) w = (Ok z, wa) ->
        exists tr,
          trace h (AppendRecords zone recs) w
          = Event (getZoneByName zone) (Ok z) :: tr
          /\ Forall (appendCall (zoneID z)) tr).
Proof.
  assert (Hcalls : forall z wa,
            h _ (getZoneByName zone) w = (Ok z, wa) ->
            exists tr,
              trace h (AppendRecords zone recs) w
              = Event (getZoneByName zone) (Ok z) :: tr
              /\ Forall (appendCall (zoneID z)) tr).
  { intros z wa Hz.
    pose proof (appendLoop_calls zone (zoneID z) recs [] wa) as H.
    unfold trace in *. rewrite (run_AppendRecords _ _ _ _ _ _ _ Hz).
    destruct (run h _ wa) as [[out w'] tr]. simpl in *.
    exists tr. split; [reflexivity|assumption]. }
  assert (Hfail : forall e wa,
            h _ (getZoneByName zone) w = (Err e, wa) ->
            trace h (AppendRecords zone recs) w
            = [Event (getZoneByName zone) (Err e)]).
  { intros e wa Hz. unfold trace. simpl. rewrite Hz. reflexivity. }
  split; [|split; [|exact Hcalls]];
    destruct (h _ (getZoneByName zone) w) as [[z|e] wa] eqn:Hz.
  - destruct (Hcalls z wa eq_refl) as (tr & -> & Htr).
    exists [Event (getZoneByName zone) (Ok z)], tr.
    split; [reflexivity|]. split; [simpl; lia|]. split.
    + constructor; [now left|constructor].
    + eapply Forall_impl; [|exact Htr]. apply appendCall_Create.
  - rewrite (Hfail e wa eq_refl).
    exists [Event (getZoneByName zone) (Err e)], [].
    split; [reflexivity|]. split; [simpl; lia|].
    split; [|constructor]. constructor; [now left|constructor].
  - destruct (Hcalls z wa eq_refl) as (tr & -> & Htr).
    constructor; [discriminate|].
    eapply Forall_impl; [|exact Htr].
    intros ev Hev. apply appendCall_Create in Hev. rewrite Hev. discriminate.
  - rewrite (Hfail e wa eq_refl).
    constructor; [discriminate|constructor].
Qed.

(** X2.  Whatever the client answers, [SetRecords] reads first, the zone
    and then its records, once each, and only writes afterwards: the
    records are not listed again between two writes, and nothing is ever
    deleted, so an existing record that no requested record matches stays.
    Every write goes to the zone resolved; a record is created only for a
    requested record with no match in the listing, and carries no
    identifier; an update targets the match of a requested record. *)
Theorem SetRecords_reads_once_never_deletes zone recs w :
  reads_then 2 (fun ev => methodOf ev = Create \/ methodOf ev = Update)
    (trace h (SetRecords zone recs) w)
  /\ Forall (fun ev => methodOf ev <> Delete) (trace h (SetRecords zone recs) w)
  /\ (forall z wa existing wb,
        h _ (getZoneByName zone) w = (Ok z, wa) ->
        h _ (getRecords (zoneID z)) wa = (Ok existing, wb) ->
        exists tr,
          trace h (SetRecords zone recs) w
          = Event (getZoneByName zone) (Ok z)
              :: Event (getRecords (zoneID z)) (Ok existing) :: tr
          /\ Forall (setCall zone (zoneID z) existing recs) tr).
Proof.
  assert (Hcalls : forall z wa existing wb,
            h _ (getZoneByName zone) w = (Ok z, wa) ->
            h _ (getRecords (zoneID z)) wa = (Ok existing, wb) ->
            exists tr,
              trace h (SetRecords zone recs) w
              = Event (getZoneByName zone) (Ok z)
                  :: Event (getRecords (zoneID z)) (Ok existing) :: tr
              /\ Forall (setCall zone (zoneID z) existing recs) tr).
  { intros z wa existing wb Hz Hl.
    pose proof (setLoop_calls zone (zoneID z) existing recs [] wb) as H.
    unfold trace in *. rewrite (run_SetRecords _ _ _ _ _ _ _ _ _ Hz Hl).
    destruct (run h _ wb) as [[out w'] tr]. simpl in *.
    exists tr. split; [reflexivity|assumption]. }
  assert (Hzone : forall e wa,
            h _ (getZoneByName zone) w = (Err e, wa) ->
            trace h (SetRecords zone recs) w
            = [Event (getZoneByName zone) (Err e)]).
  { intros e wa Hz. unfold trace. simpl. rewrite Hz. reflexivity. }
  assert (Hlist : forall z wa e wb,
            h _ (getZoneByName zone) w = (Ok z, wa) ->
            h _ (getRecords (zoneID z)) wa = (Err e, wb) ->
            trace h (SetRecords zone recs) w
            = [Event (getZoneByName zone) (Ok z);
               Event (getRecords (zoneID z)) (Err e)]).
  { intros z wa e wb Hz Hl. unfold trace. simpl. rewrite Hz. simpl.
    rewrite Hl. reflexivity. }
  split; [|split; [|exact Hcalls]];
    (destruct (h _ (getZoneByName zone) w) as [[z|e] wa] eqn:Hz;
     [destruct (h _ (getRecords (zoneID z)) wa) as [[existing|e] wb] eqn:Hl|]).
  - destruct (Hcalls z wa existing wb eq_refl Hl) as (tr & -> & Htr).
    exists [Event (getZoneByName zone) (Ok z);
            Event (getRecords (zoneID z)) (Ok existing)], tr.
    split; [reflexivity|]. split; [simpl; lia|]. split.
    + constructor; [now left|]. constructor; [now right|constructor].
    + eapply Forall_impl; [|exact Htr]. apply setCall_write.
  - rewrite (Hlist z wa e wb eq_refl Hl).
    exists [Event (getZoneByName zone) (Ok z);
            Event (getRecords (zoneID z)) (Err e)], [].
    split; [reflexivity|]. split; [simpl; lia|]. split; [|constructor].
    constructor; [now left|]. constructor; [now right|constructor].
  - rewrite (Hzone e wa eq_refl).
    exists [Event (getZoneByName zone) (Err e)], [].
    split; [reflexivity|]. split; [simpl; lia|].
    split; [|constructor]. constructor; [now left|constructor].
  - destruct (Hcalls z wa existing wb eq_refl Hl) as (tr & -> & Htr).
    constructor; [discriminate|]. constructor; [discriminate|].
    eapply Forall_impl; [|exact Htr].
    intros ev Hev. apply setCall_write in Hev.
    destruct Hev as [Hev|Hev]; rewrite Hev; discriminate.
  - rewrite (Hlist z wa e wb eq_refl Hl).
    constructor; [discriminate|]. constructor; [discriminate|constructor].
  - rewrite (Hzone e wa eq_refl).
    constructor; [discriminate|constructor].
Qed.

(** X3.  Whatever the client answers, [DeleteRecords] reads first, the
    zone and then its records, once each, and afterwards only deletes,
    in the zone resolved, records of which each is the match of a
    requested record: it deletes nothing that was not asked for, and it
    never creates or updates.  When the zone cannot be resolved or its
    records cannot be listed, it returns the error of that call and no
    record, and deletes nothing. *)
Theorem DeleteRecords_only_deletes_matches zone recs w :
  reads_then 2 (fun ev => methodOf ev = Delete)
    (trace h (DeleteRecords zone recs) w)
  /\ (forall z wa existing wb,
        h _ (getZoneByName zone) w = (Ok z, wa) ->
        h _ (getRecords (zoneID z)) wa = (Ok existing, wb) ->
        exists tr,
          trace h (DeleteRecords zone recs) w
          = Event (getZoneByName zone) (Ok z)
              :: Event (getRecords (zoneID z)) (Ok existing) :: tr
          /\ Forall (deleteCall (zoneID z) existing recs) tr)
  /\ (forall e wa,
        h _ (getZoneByName zone) w = (Err e, wa) ->
        run h (DeleteRecords zone recs) w
        = (([], Some e), wa, [Event (getZoneByName zone) (Err e)]))
  /\ (forall z wa e wb,
        h _ (getZoneByName zone) w = (Ok z, wa) ->
        h _ (getRecords (zoneID z)) wa = (Err e, wb) ->
        run h (DeleteRecords zone recs) w
        = (([], Some e), wb,
           [Event (getZoneByName zone) (Ok z);
            Event (getRecords (zoneID z)) (Err e)])).
Proof.
  assert (Hcalls : forall z wa existing wb,
            h _ (getZoneByName zone) w = (Ok z, wa) ->
            h _ (getRecords (zoneID z)) wa = (Ok existing, wb) ->
            exists tr,
              trace h (DeleteRecords zone recs) w
              = Event (getZoneByName zone) (Ok z)
                  :: Event (getRecords (zoneID z)) (Ok existing) :: tr
              /\ Forall (deleteCall (zoneID z) existing recs) tr).
  { intros z wa existing wb Hz Hl.
    pose proof (deleteLoop_calls (zoneID z) existing recs [] wb) as H.
    unfold trace in *. rewrite (run_DeleteRecords _ _ _ _ _ _ _ _ _ Hz Hl).
    destruct (run h _ wb) as [[out w'] tr]. simpl in *.
    exists tr. split; [reflexivity|assumption]. }
  assert (Hzone : forall e wa,
            h _ (getZoneByName zone) w = (Err e, wa) ->
            run h (DeleteRecords zone recs) w
            = (([], Some e), wa, [Event (getZoneByName zone) (Err e)])).
  { intros e wa Hz. simpl. rewrite Hz. reflexivity. }
  assert (Hlist : forall z wa e wb,
            h _ (getZoneByName zone) w = (Ok z, wa) ->
            h _ (getRecords (zoneID z)) wa = (Err e, wb) ->
            run h (DeleteRecords zone recs) w
            = (([], Some e), wb,
               [Event (getZoneByName zone) (Ok z);
                Event (getRecords (zoneID z)) (Err e)])).
  { intros z wa e wb Hz Hl. simpl. rewrite Hz. simpl. rewrite Hl.
    reflexivity. }
  split; [|split; [exact Hcalls|split; [exact Hzone|exact Hlist]]].
  destruct (h _ (getZoneByName zone) w) as [[z|e] wa] eqn:Hz;
    [destruct (h _ (getRecords (zoneID z)) wa) as [[existing|e] wb] eqn:Hl|].
  - destruct (Hcalls z wa existing wb eq_refl Hl) as (tr & -> & Htr).
    exists [Event (getZoneByName zone) (Ok z);
            Event (getRecords (zoneID z)) (Ok existing)], tr.
    split; [reflexivity|]. split; [simpl; lia|]. split.
    + constructor; [now left|]. constructor; [now right|constructor].
    + eapply Forall_impl; [|exact Htr]. apply deleteCall_Delete.
  - unfold trace. rewrite (Hlist z wa e wb eq_refl Hl). simpl.
    exists [Event (getZoneByName zone) (Ok z);
            Event (getRecords (zoneID z)) (Err e)], [].
    split; [reflexivity|]. split; [simpl; lia|]. split; [|constructor].
    constructor; [now left|]. constructor; [now right|constructor].
  - unfold trace. rewrite (Hzone e wa eq_refl). simpl.
    exists [Event (getZoneByName zone) (Err e)], [].
    split; [reflexivity|]. split; [simpl; lia|].
    split; [|constructor]. constructor; [now left|constructor].
Qed.

End Calls.

Section Batches.

Variable W : Type.
Variable h : handler W.

Ltac answer x e w1 :=
  match goal with
  | |- context [@h ?X ?c ?w] => destruct (@h X c w) as [[x|e] w1] eqn:?
  end.

Lemma answered_length cs answers :
  List.length answers = List.length cs ->
  List.length (answered cs answers) = List.length cs.
Proof.
  intros H. unfold answered. rewrite length_map, length_combine. lia.
Qed.

(** What partial results say of the number of results and of calls. *)
Lemma partial_results_bounds plan recs results out tr :
  partial_results plan recs results out tr ->
  List.length (fst out) <= List.length results + List.length recs
  /\ (snd out = None ->
      List.length (fst out) = List.length results + List.length recs)
  /\ List.length tr <= List.length recs
  /\ Forall (fun r => exists rr, r = libdns.IsRR rr)
       (skipn (List.length results) (fst out)).
Proof.
  intros (done & rest & cs & answers & last & -> & HF & Hlen & -> & Hout & Herr).
  apply Forall2_length in HF.
  rewrite Hout, !length_app, length_map, (answered_length _ _ Hlen).
  rewrite skipn_app, skipn_all, Nat.sub_diag. simpl.
  destruct (snd out) as [err|].
  - destruct Herr as (r & rest' & -> & [[_ ->]|(c & _ & ->)]); simpl;
      (repeat split; [lia|discriminate|lia|]);
      apply Forall_forall; intros y Hy; apply in_map_iff in Hy;
      destruct Hy as (a & <- & _); eexists; reflexivity.
  - destruct Herr as [-> ->]. simpl. rewrite !Nat.add_0_r.
    repeat split; try lia.
    apply Forall_forall. intros y Hy. apply in_map_iff in Hy.
    destruct Hy as (a & <- & _). eexists. reflexivity.
Qed.

Lemma deleteLoop_calls_bound zid existing recs :
  forall results w,
    List.length (trace h (deleteLoop zid existing recs results) w)
    <= List.length recs.
Proof.
  unfold trace.
  induction recs as [|r recs IH]; intros results w; simpl; [lia|].
  destruct (findRecordWithValue existing r); simpl; [|lia].
  answer x e w1; simpl; [|lia].
  specialize (IH (results ++ [r]) w1).
  destruct (run h _ w1) as [[out w2] tr2]. simpl in *. lia.
Qed.

Lemma IsRR_translates zone r :
  (exists rr, r = libdns.IsRR rr) ->
  exists d, fromLibdnsRecord zone r = Ok d /\ toLibdnsRecord d = r.
Proof.
  intros ([name ttl typ data] & ->). eexists. split; reflexivity.
Qed.

(** X4.  Whatever the client answers, [AppendRecords], [SetRecords] and
    [DeleteRecords] return at most one record per requested record, and
    exactly one when they return no error; and they call the client at
    most once per requested record after their reading calls, one for
    [AppendRecords] and two for the others. *)
Theorem batch_bounds zone recs w :
  (List.length (fst (returned h (AppendRecords zone recs) w))
   <= List.length recs
   /\ (snd (returned h (AppendRecords zone recs) w) = None ->
       List.length (fst (returned h (AppendRecords zone recs) w))
       = List.length recs)
   /\ List.length (trace h (AppendRecords zone recs) w)
      <= 1 + List.length recs)
  /\ (List.length (fst (returned h (SetRecords zone recs) w))
      <= List.length recs
      /\ (snd (returned h (SetRecords zone recs) w) = None ->
          List.length (fst (returned h (SetRecords zone recs) w))
          = List.length recs)
      /\ List.length (trace h (SetRecords zone recs) w)
         <= 2 + List.length recs)
  /\ (List.length (fst (returned h (DeleteRecords zone recs) w))
      <= List.length recs
      /\ (snd (returned h (DeleteRecords zone recs) w) = None ->
          List.length (fst (returned h (DeleteRecords zone recs) w))
          = List.length recs)
      /\ List.length (trace h (DeleteRecords zone recs) w)
         <= 2 + List.length recs).
Proof.
  unfold returned, trace. split; [|split].
  - simpl. destruct (h _ (getZoneByName zone) w) as [[z|e] wa]; simpl;
      [|repeat split; try lia; discriminate].
    pose proof (partial_results_bounds _ _ _ _ _
                  (appendLoop_partial W h zone (zoneID z) recs [] wa))
      as (H1 & H2 & H3 & _).
    unfold returned, trace in *.
    destruct (run h _ wa) as [[out w'] tr]. simpl in *.
    repeat split; [assumption|assumption|lia].
  - simpl. destruct (h _ (getZoneByName zone) w) as [[z|e] wa]; simpl;
      [|repeat split; try lia; discriminate].
    destruct (h _ (getRecords (zoneID z)) wa) as [[existing|e] wb]; simpl;
      [|repeat split; try lia; discriminate].
    pose proof (partial_results_bounds _ _ _ _ _
                  (setLoop_partial W h zone (zoneID z) existing recs [] wb))
      as (H1 & H2 & H3 & _).
    unfold returned, trace in *.
    destruct (run h _ wb) as [[out w'] tr]. simpl in *.
    repeat split; [assumption|assumption|lia].
  - simpl. destruct (h _ (getZoneByName zone) w) as [[z|e] wa]; simpl;
      [|repeat split; try lia; discriminate].
    destruct (h _ (getRecords (zoneID z)) wa) as [[existing|e] wb]; simpl;
      [|repeat split; try lia; discriminate].
    pose proof (deleteLoop_prefix W h (zoneID z) existing recs [] wb)
      as [H1 H2].
    pose proof (deleteLoop_calls_bound (zoneID z) existing recs [] wb) as H3.
    unfold returned, trace in *.
    destruct (run h _ wb) as [[out w'] tr]. simpl in *.
    repeat split.
    + rewrite H1, length_firstn. lia.
    + intros Herr. now rewrite (H2 Herr).
    + lia.
Qed.

(** X5.  Whatever the client answers, every record that [GetRecords],
    [AppendRecords] or [SetRecords] returns is a [libdns.RR]: the
    translation of [fromLibdnsRecord] accepts it, so what one call returns
    can be requested in another, and translating it there and back gives
    the same record. *)
Theorem returned_records_translate zone recs w :
  let supported r :=
    exists d, fromLibdnsRecord zone r = Ok d /\ toLibdnsRecord d = r in
  Forall supported (fst (returned h (GetRecords zone) w))
  /\ Forall supported (fst (returned h (AppendRecords zone recs) w))
  /\ Forall supported (fst (returned h (SetRecords zone recs) w)).
Proof.
  intros supported.
  assert (Hs : forall l, Forall (fun r => exists rr, r = libdns.IsRR rr) l ->
                         Forall supported l).
  { intros l. apply Forall_impl. apply IsRR_translates. }
  unfold returned. split; [|split]; apply Hs.
  - simpl. destruct (h _ (getZoneByName zone) w) as [[z|e] wa]; simpl;
      [|constructor].
    destruct (h _ (getRecords (zoneID z)) wa) as [[l|e] wb]; simpl;
      [|constructor].
    apply Forall_forall. intros y Hy. apply in_map_iff in Hy.
    destruct Hy as (a & <- & _). eexists. reflexivity.
  - simpl. destruct (h _ (getZoneByName zone) w) as [[z|e] wa]; simpl;
      [|constructor].
    pose proof (partial_results_bounds _ _ _ _ _
                  (appendLoop_partial W h zone (zoneID z) recs [] wa))
      as (_ & _ & _ & H).
    unfold returned in *.
    destruct (run h _ wa) as [[out w'] tr]. simpl in *. exact H.
  - simpl. destruct (h _ (getZoneByName zone) w) as [[z|e] wa]; simpl;
      [|constructor].
    destruct (h _ (getRecords (zoneID z)) wa) as [[existing|e] wb]; simpl;
      [|constructor].
    pose proof (partial_results_bounds _ _ _ _ _
                  (setLoop_partial W h zone (zoneID z) existing recs [] wb))
      as (_ & _ & _ & H).
    unfold returned in *.
    destruct (run h _ wb) as [[out w'] tr]. simpl in *. exact H.
Qed.

(** The loop of [AppendRecords] started from some results gives these
    results followed by what it gives started from none. *)
Lemma appendLoop_from zone zid recs :
  forall results w,
    run h (appendLoop zone zid recs results) w =
    let '(out, w', tr) := run h (appendLoop zone zid recs []) w in
    ((results ++ fst out, snd out), w', tr).
Proof.
  induction recs as [|r recs IH]; intros results w; simpl.
  - now rewrite app_nil_r.
  - destruct (fromLibdnsRecord zone r) as [d|e]; simpl;
      [|now rewrite app_nil_r].
    answer x e w1; simpl; [|now rewrite app_nil_r].
    rewrite (IH (results ++ [toLibdnsRecord x])), (IH [toLibdnsRecord x]).
    destruct (run h (appendLoop zone zid recs []) w1) as [[out w2] tr2].
    simpl. now rewrite <- app_assoc.
Qed.

Lemma appendLoop_app zone zid xs :
  forall ys results w res w1 tr1,
    run h (appendLoop zone zid xs results) w = ((res, None), w1, tr1) ->
    run h (appendLoop zone zid (xs ++ ys) results) w =
    let '(out, w2, tr2) := run h (appendLoop zone zid ys res) w1 in
    (out, w2, tr1 ++ tr2).
Proof.
  induction xs as [|r xs IH]; intros ys results w res w1 tr1 H; simpl in *.
  - inversion H; subst. destruct (run h _ w1) as [[out w2] tr2]. reflexivity.
  - destruct (fromLibdnsRecord zone r) as [d|e]; simpl in *;
      [|discriminate].
    destruct (h _ (addRecord zid d) w) as [[x|e] w'] eqn:Hadd; simpl in *;
      [|discriminate].
    destruct (run h (appendLoop zone zid xs _) w') as [[[res' err'] w''] tr']
      eqn:E.
    inversion H; subst.
    rewrite (IH ys _ _ _ _ _ E).
    destruct (run h _ w1) as [[out w2] tr2]. reflexivity.
Qed.

(** X6.  Appending in one call is appending in two.  When a call of
    [AppendRecords] with the records [xs] returns no error and the zone
    then resolves to the same identifier, with no effect on the remote
    side, a call with [xs ++ ys] returns the results of the call with
    [xs] followed by those of a call with [ys] made after it, with the
    error of that second call, and leaves the remote side as the second
    call leaves it; its calls are those of the two calls, but for the
    resolution of the zone by the second. *)
Theorem AppendRecords_app zone xs ys w z wa res1 w1 tr1 z' :
  h _ (getZoneByName zone) w = (Ok z, wa) ->
  run h (AppendRecords zone xs) w = ((res1, None), w1, tr1) ->
  h _ (getZoneByName zone) w1 = (Ok z', w1) ->
  zoneID z' = zoneID z ->
  returned h (AppendRecords zone (xs ++ ys)) w
  = (res1 ++ fst (returned h (AppendRecords zone ys) w1),
     snd (returned h (AppendRecords zone ys) w1))
  /\ final h (AppendRecords zone (xs ++ ys)) w
     = final h (AppendRecords zone ys) w1
  /\ trace h (AppendRecords zone (xs ++ ys)) w
     = tr1 ++ tl (trace h (AppendRecords zone ys) w1).
Proof.
  intros Hz Hxs Hz' Hid.
  rewrite (run_AppendRecords _ _ _ _ _ _ _ Hz) in Hxs.
  destruct (run h (appendLoop zone (zoneID z) xs []) wa)
    as [[out1 w1'] tr1'] eqn:E1.
  inversion Hxs; subst. clear Hxs.
  unfold returned, final, trace.
  rewrite (run_AppendRecords _ _ _ _ _ _ _ Hz).
  rewrite (run_AppendRecords _ _ _ _ _ _ _ Hz'), Hid.
  rewrite (appendLoop_app _ _ _ ys _ _ _ _ _ E1).
  rewrite (appendLoop_from zone (zoneID z) ys res1 w1).
  destruct (run h (appendLoop zone (zoneID z) ys []) w1) as [[out2 w2] tr2].
  simpl. repeat split.
Qed.

(** The loop of [AppendRecords] returns the requested records when it
    ends without error and each creation was answered with the record it
    was asked to create. *)
Lemma appendLoop_echo zone zid recs :
  forall results w,
    forallb echoed (trace h (appendLoop zone zid recs results) w) = true ->
    snd (returned h (appendLoop zone zid recs results) w) = None ->
    fst (returned h (appendLoop zone zid recs results) w) = results ++ recs.
Proof.
  unfold returned, trace.
  induction recs as [|r recs IH]; intros results w; simpl.
  - now rewrite app_nil_r.
  - destruct r as [[name ttl typ data]|typeName view]; simpl;
      [|discriminate].
    answer x e w1; simpl; [|discriminate].
    specialize (IH (results ++ [toLibdnsRecord x]) w1).
    destruct (run h _ w1) as [[out w2] tr2]. simpl in *.
    intros Hecho Herr. apply andb_true_iff in Hecho. destruct Hecho as [Hx Htr].
    rewrite (IH Htr Herr), <- app_assoc. simpl.
    repeat (apply andb_true_iff in Hx; destruct Hx as [Hx ?]).
    match goal with H : (_ =? _)%Z = true |- _ => apply Z.eqb_eq in H end.
    repeat match goal with
           | H : (_ =? _) = true |- _ => apply String.eqb_eq in H
           end.
    unfold toLibdnsRecord. congruence.
Qed.

(** X7.  When [AppendRecords] returns no error and the client answered
    every creation with the record it was asked to create, whatever the
    identifier, the list returned is the list requested. *)
Theorem AppendRecords_returns_requested zone recs w :
  forallb echoed (trace h (AppendRecords zone recs) w) = true ->
  snd (returned h (AppendRecords zone recs) w) = None ->
  fst (returned h (AppendRecords zone recs) w) = recs.
Proof.
  unfold returned, trace. simpl.
  destruct (h _ (getZoneByName zone) w) as [[z|e] wa]; simpl;
    [|discriminate].
  pose proof (appendLoop_echo zone (zoneID z) recs [] wa) as H.
  unfold returned, trace in H.
  destruct (run h _ wa) as [[out w'] tr]. simpl in *. exact H.
Qed.

Lemma setLoop_no_match zone zid existing recs :
  (forall r, In r recs -> findRecord existing r = None) ->
  forall results w,
    run h (setLoop zone zid existing recs results) w
    = run h (appendLoop zone zid recs results) w.
Proof.
  induction recs as [|r recs IH]; intros Hnone results w; simpl;
    [reflexivity|].
  rewrite (Hnone r (or_introl eq_refl)).
  destruct (fromLibdnsRecord zone r) as [d|e]; simpl; [|reflexivity].
  answer x e w1; simpl; [|reflexivity].
  rewrite IH; [reflexivity|]. intros r' Hr'. apply Hnone. now right.
Qed.

(** X8.  When no requested record has a match in the listing, as in a
    zone with no record, [SetRecords] does what [AppendRecords] does:
    after the two reading calls it issues the calls of the loop of
    [AppendRecords], and it returns the same records and the same error;
    and when the listing has no effect on the remote side it leaves the
    remote side as [AppendRecords] leaves it. *)
Theorem SetRecords_as_AppendRecords zone recs w z wa existing :
  h _ (getZoneByName zone) w = (Ok z, wa) ->
  h _ (getRecords (zoneID z)) wa = (Ok existing, wa) ->
  (forall r, In r recs -> findRecord existing r = None) ->
  returned h (SetRecords zone recs) w = returned h (AppendRecords zone recs) w
  /\ final h (SetRecords zone recs) w = final h (AppendRecords zone recs) w
  /\ trace h (SetRecords zone recs) w
     = Event (getZoneByName zone) (Ok z)
         :: Event (getRecords (zoneID z)) (Ok existing)
         :: tl (trace h (AppendRecords zone recs) w)
  /\ Forall (fun ev => methodOf ev <> Update) (trace h (SetRecords zone recs) w).
Proof.
  intros Hz Hl Hnone.
  pose proof (appendLoop_calls W h zone (zoneID z) recs [] wa) as Hc.
  unfold returned, final, trace in *.
  rewrite (run_SetRecords _ _ _ _ _ _ _ _ _ Hz Hl).
  rewrite (run_AppendRecords _ _ _ _ _ _ _ Hz).
  rewrite (setLoop_no_match zone (zoneID z) existing recs Hnone).
  destruct (run h _ wa) as [[out w'] tr]. simpl in *.
  repeat split.
  constructor; [discriminate|]. constructor; [discriminate|].
  eapply Forall_impl; [|exact Hc].
  intros ev Hev. apply appendCall_Create in Hev. rewrite Hev. discriminate.
Qed.

End Batches.

(** X9.  Translating a dynv6 record to a [libdns.RR] and back loses the
    identifier and nothing else, and the data extracted from the
    [libdns.RR] is the [Data] of the record.  Whenever
    [fromLibdnsRecord] accepts a generic record, the record it gives
    carries no identifier and the data that [getDataFromRecord] extracts,
    translates back to the generic record, and is the same for every
    zone name. *)
Theorem translation_back zone p :
  fromLibdnsRecord zone (toLibdnsRecord p)
  = Ok {| ID := 0; Name := Name p; Typ := Typ p; Data := Data p;
          TTL := TTL p |}
  /\ getDataFromRecord (toLibdnsRecord p) = Data p
  /\ (forall r d,
        fromLibdnsRecord zone r = Ok d ->
        ID d = 0%Z
        /\ Data d = getDataFromRecord r
        /\ toLibdnsRecord d = r
        /\ forall zone', fromLibdnsRecord zone' r = Ok d).
Proof.
  split; [reflexivity|]. split; [reflexivity|].
  intros [[name ttl typ data]|typeName view] d H; simpl in H;
    [|discriminate].
  inversion H; subst. repeat split.
Qed.

Section Deleting.

Variable W : Type.
Variable h : handler W.

Lemma deletions_In zid existing pre matches r e :
  Forall2 (fun x m => findRecordWithValue existing x = Some m) pre matches ->
  In r pre ->
  findRecordWithValue existing r = Some e ->
  In (Event (deleteRecord zid (ID e)) (Ok tt)) (deletions zid matches).
Proof.
  intros HF. induction HF as [|x m pre matches Hx HF IH]; simpl; [tauto|].
  intros [->|Hr] He.
  - left. congruence.
  - right. now apply IH.
Qed.

(** X10.  When [DeleteRecords] gets to a requested record that has a
    match (the records before it were deleted without error), it deletes
    by the identifier of the match in the listing made at the start of
    the call.  The listing is not refreshed: for a record that was
    already requested before in the same list, the deletion of the same
    identifier is issued a second time. *)
Theorem DeleteRecords_deletes_match_of_listing
  zone pre r post w z wa existing wb res w1 tr1 e :
  h _ (getZoneByName zone) w = (Ok z, wa) ->
  h _ (getRecords (zoneID z)) wa = (Ok existing, wb) ->
  run h (DeleteRecords zone pre) w = ((res, None), w1, tr1) ->
  findRecordWithValue existing r = Some e ->
  (exists tr2,
     trace h (DeleteRecords zone (pre ++ r :: post)) w
     = tr1 ++ Event (deleteRecord (zoneID z) (ID e))
                (fst (h _ (deleteRecord (zoneID z) (ID e)) w1)) :: tr2)
  /\ (In r pre ->
      In (Event (deleteRecord (zoneID z) (ID e)) (Ok tt)) tr1).
Proof.
  intros Hz Hl Hpre Hfind.
  destruct (DeleteRecords_reached W h _ _ _ _ _ _ _ _ _ _ Hz Hl Hpre)
    as (tr & -> & Eloop).
  split.
  - unfold trace. rewrite (run_DeleteRecords W h _ _ _ _ _ _ _ Hz Hl).
    rewrite (run_deleteLoop_app W h _ _ _ (r :: post) _ _ _ _ _ Eloop).
    simpl. rewrite Hfind. simpl.
    destruct (h _ (deleteRecord (zoneID z) (ID e)) w1) as [[u|err] w2]; simpl.
    + destruct (run h _ w2) as [[out w3] tr2]. simpl.
      exists tr2. reflexivity.
    + exists []. reflexivity.
  - intros Hr. apply run_deleteLoop_ok in Eloop.
    destruct Eloop as [_ (matches & HF & ->)].
    right. right. now apply (deletions_In (zoneID z) existing pre matches r).
Qed.

End Deleting.

(** ** These theorems at work on the reference client *)

(** Appending an address of [mail] and a [libdns.Address]. *)
Lemma AppendRecords_only_creates_witness :
  exists tr,
    trace dynv6 (AppendRecords "example.com" [mailA; mailAddress]) zone0
    = Event (getZoneByName "example.com") (Ok exampleZone) :: tr
    /\ Forall (appendCall (zoneID exampleZone)) tr.
Proof.
  apply (proj2 (proj2 (AppendRecords_only_creates world dynv6 "example.com"
                         [mailA; mailAddress] zone0))
           exampleZone zone0).
  reflexivity.
Defined.

(** Setting a new address for [www] and an address of [mail]. *)
Lemma SetRecords_reads_once_never_deletes_witness :
  exists tr,
    trace dynv6 (SetRecords "example.com" [wwwNew; mailA]) zone0
    = Event (getZoneByName "example.com") (Ok exampleZone)
        :: Event (getRecords (zoneID exampleZone)) (Ok [www1]) :: tr
    /\ Forall (setCall "example.com" (zoneID exampleZone) [www1]
                 [wwwNew; mailA])
         tr.
Proof.
  apply (proj2 (proj2 (SetRecords_reads_once_never_deletes world dynv6
                         "example.com" [wwwNew; mailA] zone0))
           exampleZone zone0 [www1] zone0); reflexivity.
Defined.

(** Deleting the address of [www] as listed, then in an unknown zone and
    during an outage after the first call. *)
Lemma DeleteRecords_only_deletes_matches_witness :
  (exists tr,
     trace dynv6 (DeleteRecords "example.com" [wwwListed; mailA]) zone0
     = Event (getZoneByName "example.com") (Ok exampleZone)
         :: Event (getRecords (zoneID exampleZone)) (Ok [www1]) :: tr
     /\ Forall (deleteCall (zoneID exampleZone) [www1] [wwwListed; mailA]) tr)
  /\ run dynv6 (DeleteRecords "example.org" [wwwListed]) zone0
     = (([], Some ZoneNotFound), zone0,
        [Event (getZoneByName "example.org") (Err ZoneNotFound)])
  /\ run (outage dynv6) (DeleteRecords "example.com" [wwwListed]) (1, zone0)
     = (([], Some (TransportError "timeout")), (0, zone0),
        [Event (getZoneByName "example.com") (Ok exampleZone);
         Event (getRecords (zoneID exampleZone))
           (Err (TransportError "timeout"))]).
Proof.
  split; [|split].
  - apply (proj1 (proj2 (DeleteRecords_only_deletes_matches world dynv6
                           "example.com" [wwwListed; mailA] zone0))
             exampleZone zone0 [www1] zone0); reflexivity.
  - apply (proj1 (proj2 (proj2 (DeleteRecords_only_deletes_matches world dynv6
                                  "example.org" [wwwListed] zone0)))
             ZoneNotFound zone0).
    reflexivity.
  - apply (proj2 (proj2 (proj2 (DeleteRecords_only_deletes_matches
                                  (nat * world)%type (outage dynv6)
                                  "example.com" [wwwListed] (1, zone0))))
             exampleZone (0, zone0)); reflexivity.
Defined.

(** Three calls that return no error return one record for each
    requested one. *)
Lemma batch_bounds_witness :
  List.length (fst (returned dynv6 (AppendRecords "example.com" [mailA; mailB])
                      zone0))
  = List.length [mailA; mailB]
  /\ List.length (fst (returned dynv6 (SetRecords "example.com" [wwwNew; mailA])
                         zone0))
     = List.length [wwwNew; mailA]
  /\ List.length (fst (returned dynv6 (DeleteRecords "example.com" [wwwListed])
                         zone0))
     = List.length [wwwListed].
Proof.
  split; [|split].
  - apply (proj1 (proj2 (proj1 (batch_bounds world dynv6 "example.com"
                                  [mailA; mailB] zone0)))).
    reflexivity.
  - apply (proj1 (proj2 (proj1 (proj2 (batch_bounds world dynv6 "example.com"
                                         [wwwNew; mailA] zone0))))).
    reflexivity.
  - apply (proj1 (proj2 (proj2 (proj2 (batch_bounds world dynv6 "example.com"
                                         [wwwListed] zone0))))).
    reflexivity.
Defined.

(** Appending an address of [mail], then another and a
    [libdns.Address]. *)
Lemma AppendRecords_app_witness :
  let w1 := mkWorld exampleZone [www1; mkRecord 8 "mail" "A" "9.9.9.9" 300] in
  let ys := [mailB; mailAddress] in
  returned dynv6 (AppendRecords "example.com" ([mailA] ++ ys)) zone0
  = ([mailA] ++ fst (returned dynv6 (AppendRecords "example.com" ys) w1),
     snd (returned dynv6 (AppendRecords "example.com" ys) w1))
  /\ final dynv6 (AppendRecords "example.com" ([mailA] ++ ys)) zone0
     = final dynv6 (AppendRecords "example.com" ys) w1
  /\ trace dynv6 (AppendRecords "example.com" ([mailA] ++ ys)) zone0
     = [Event (getZoneByName "example.com") (Ok exampleZone);
        Event (addRecord 1 (mkRecord 0 "mail" "A" "9.9.9.9" 300))
          (Ok (mkRecord 8 "mail" "A" "9.9.9.9" 300))]
         ++ tl (trace dynv6 (AppendRecords "example.com" ys) w1).
Proof.
  apply (AppendRecords_app world dynv6 "example.com" [mailA]
           [mailB; mailAddress] zone0 exampleZone zone0 [mailA]
           (mkWorld exampleZone [www1; mkRecord 8 "mail" "A" "9.9.9.9" 300])
           _ exampleZone); reflexivity.
Defined.

(** Appending two addresses of [mail]. *)
Lemma AppendRecords_returns_requested_witness :
  fst (returned dynv6 (AppendRecords "example.com" [mailA; mailB]) zone0)
  = [mailA; mailB].
Proof.
  apply (AppendRecords_returns_requested world dynv6 "example.com"
           [mailA; mailB] zone0); reflexivity.
Defined.

(** Setting two addresses of [mail] in the zone with no record. *)
Lemma SetRecords_as_AppendRecords_witness :
  returned dynv6 (SetRecords "example.com" [mailA; mailB]) emptyZone
  = returned dynv6 (AppendRecords "example.com" [mailA; mailB]) emptyZone
  /\ final dynv6 (SetRecords "example.com" [mailA; mailB]) emptyZone
     = final dynv6 (AppendRecords "example.com" [mailA; mailB]) emptyZone
  /\ trace dynv6 (SetRecords "example.com" [mailA; mailB]) emptyZone
     = Event (getZoneByName "example.com") (Ok exampleZone)
         :: Event (getRecords (zoneID exampleZone)) (Ok [])
         :: tl (trace dynv6 (AppendRecords "example.com" [mailA; mailB])
                  emptyZone)
  /\ Forall (fun ev => methodOf ev <> Update)
       (trace dynv6 (SetRecords "example.com" [mailA; mailB]) emptyZone).
Proof.
  apply (SetRecords_as_AppendRecords world dynv6 "example.com" [mailA; mailB]
           emptyZone exampleZone emptyZone []);
    reflexivity.
Defined.

(** The new address of [www], translated. *)
Lemma translation_back_witness :
  ID (mkRecord 0 "www" "A" "5.6.7.8" 300) = 0%Z
  /\ Data (mkRecord 0 "www" "A" "5.6.7.8" 300) = getDataFromRecord wwwNew
  /\ toLibdnsRecord (mkRecord 0 "www" "A" "5.6.7.8" 300) = wwwNew
  /\ forall zone',
       fromLibdnsRecord zone' wwwNew
       = Ok (mkRecord 0 "www" "A" "5.6.7.8" 300).
Proof.
  apply (proj2 (proj2 (translation_back "example.com" www1)) wwwNew).
  reflexivity.
Defined.

(** Deleting the address of [www] twice: the second deletion of the same
    identifier is refused by the reference client. *)
Lemma DeleteRecords_deletes_match_of_listing_witness :
  (exists tr2,
     trace dynv6 (DeleteRecords "example.com" ([wwwListed] ++ wwwListed :: []))
       zone0
     = (reads [www1] ++ [Event (deleteRecord 1 7) (Ok tt)])
         ++ Event (deleteRecord (zoneID exampleZone) (ID www1))
              (fst (dynv6 _ (deleteRecord (zoneID exampleZone) (ID www1))
                      emptyZone))
            :: tr2)
  /\ (In wwwListed [wwwListed] ->
      In (Event (deleteRecord (zoneID exampleZone) (ID www1)) (Ok tt))
        (reads [www1] ++ [Event (deleteRecord 1 7) (Ok tt)])).
Proof.
  apply (DeleteRecords_deletes_match_of_listing world dynv6 "example.com"
           [wwwListed] wwwListed [] zone0 exampleZone zone0 [www1] zone0
           [wwwListed] emptyZone
           (reads [www1] ++ [Event (deleteRecord 1 7) (Ok tt)]) www1);
    reflexivity.
Defined.
